(** * ModSlash: moderation command handlers

    A shallow embedding of the two ModSlash cogs

    - [src/insane-moderation/modslash.py] (slash commands only), and
    - [src/modslash/modslash.py] (slash commands, context-menu commands and
      prefix configuration commands),

    together with the properties their specification states about the
    authorization guard, the hierarchy checks, the action handlers and the
    configuration store.

    Every handler is a coroutine that reads ambient platform state, sends
    responses and calls at most one platform mutation.  The trace records the
    requests a handler awaits; what each request does (returns or raises) is
    given by the platform and by the interaction.  A handler is embedded
    as a computation in a small trace monad [IO]: it returns its Python result
    together with the list of effects it performed, in program order. *)

From stdpp Require Import gmap strings list pretty.

Local Open Scope string_scope.
Local Open Scope Z_scope.

(** ** Platform data (owned by the client library) *)

(** [discord.Role]: the handlers read [role.id] and [role.mention]. *)
Record Role := {
  role_id : Z;
  role_mention : string
}.

(** [discord.VoiceState]: [channel] is [None] when the member is connected to
    no voice channel. *)
Record VoiceState := {
  channel : option Z
}.

(** [discord.Member].  [top_role] is the rank of the member's highest role:
    the library orders roles by their position in the guild hierarchy, and
    [author.top_role <= member.top_role] is the comparison of these ranks.
    [voice] is [None] when the member has no voice state. *)
Record Member := {
  member_id : Z;
  name : string;
  display_name : string;
  mention : string;
  roles : list Role;
  top_role : Z;
  voice : option VoiceState
}.

(** [discord.Guild]: [me] is the bot's own member in the guild. *)
Record Guild := {
  guild_id : Z;
  me : Member
}.

(** What an awaited platform request does: it returns, raises
    [discord.Forbidden], or raises another [Exception] [e]; the string is
    [str(e)]. *)
Inductive Outcome :=
| Returned
| RaisedForbidden (e : string)
| RaisedException (e : string).

(** [discord.Interaction], and the [commands.Context] of a prefix command.
    [response content] is what awaiting
    [interaction.response.send_message(content, ephemeral=True)] does. *)
Record Interaction := {
  user : Member;
  guild : Guild;
  response : string → Outcome
}.

Record Context := {
  ctx_guild : Guild
}.

(** The cog.  [config] is the persisted per-guild configuration, keyed by
    guild id; a guild without a record has the registered default
    [{"mod_roles": []}]. *)
Record ModSlash := {
  config : gmap Z (list Z)
}.

Definition mod_roles (self : ModSlash) (g : Guild) : list Z :=
  default [] (config self !! guild_id g).

Definition set_mod_roles (self : ModSlash) (g : Guild) (l : list Z) : ModSlash :=
  {| config := <[guild_id g := l]> (config self) |}.

(** The bot ([Red]): [interaction.client] and [self.bot] both denote it. *)
Record Red := {
  is_owner : Member → bool;
  get_cog : string → option ModSlash
}.

(** ** Platform mutations and their outcomes *)

(** [member.kick(reason=..)], [member.ban(reason=..)] and
    [member.edit(mute=.., deafen=.., reason=..)]; a keyword that is not
    passed to [edit] is [None]. *)
Inductive Call :=
| member_kick (target : Z) (reason : string)
| member_ban (target : Z) (reason : string)
| member_edit (target : Z) (mute deafen : option bool) (reason : string).

(** The observable effects of a handler. *)
Inductive Event :=
| Called (c : Call)
| send_message (content : string) (ephemeral : bool)
| ctx_send (content : string).

Global Instance Call_eq_dec : EqDecision Call.
Proof. solve_decision. Defined.
Global Instance Event_eq_dec : EqDecision Event.
Proof. solve_decision. Defined.

(** ** The trace monad *)

Definition IO (A : Type) : Type := A * list Event.

Global Instance IO_ret : MRet IO := λ A x, (x, []).
Global Instance IO_bind : MBind IO := λ A B f m,
  let '(y, t) := f (fst m) in (y, (snd m ++ t)%list).

Definition result {A} (m : IO A) : A := fst m.
Definition trace {A} (m : IO A) : list Event := snd m.

(** [await interaction.response.send_message(content, ephemeral=True)]
    outside any [try]: the response is the last effect of the coroutine,
    whether the await returns or raises. *)
Definition respond (content : string) : IO unit :=
  (tt, [send_message content true]).

(** The same await inside a [try]: what it does decides how the [try]
    goes on. *)
Definition await_respond (interaction : Interaction) (content : string)
    : IO Outcome :=
  (response interaction content, [send_message content true]).

(** Two awaits in sequence inside a [try]: the second runs only if the first
    returns, and the first one that raises decides the [except] clause. *)
Definition and_then (first next : IO Outcome) : IO Outcome :=
  r ← first;
  match r with
  | Returned => next
  | _ => mret r
  end.

(** [await ctx.send(content)] *)
Definition send (content : string) : IO unit :=
  (tt, [ctx_send content]).

(** The mutations of a trace, and whether it has any. *)
Definition calls (t : list Event) : list Call :=
  omap (λ e, match e with Called c => Some c | _ => None end) t.

(** Python's [list.remove(x)]: drops the first occurrence of [x], and raises
    [ValueError] ([None]) when there is none. *)
Fixpoint list_remove (x : Z) (l : list Z) : option (list Z) :=
  match l with
  | [] => None
  | y :: l' => if decide (y = x) then Some l' else (y ::.) <$> list_remove x l'
  end.

(** ** The authorization guard (both files, lines 9-34 and 9-29) *)

Section WithBot.
Variable bot : Red.

Definition is_mod_check (interaction : Interaction) : IO bool :=
  if is_owner bot (user interaction) then mret true
  else
    match get_cog bot "ModSlash" with
    | None => mret false
    | Some cog =>
      let mod_role_ids := mod_roles cog (guild interaction) in
      if bool_decide (mod_role_ids = []) then
        _ ← respond "No moderator roles have been configured on this server.";
        mret false
      else
        let author_role_ids : gset Z :=
          list_to_set (role_id <$> roles (user interaction)) in
        if bool_decide (author_role_ids ∩ list_to_set mod_role_ids = ∅) then
          _ ← respond "You do not have the required role to use this command.";
          mret false
        else mret true
    end.

(** [_check_voice_channel] *)
Definition _check_voice_channel (interaction : Interaction) (member : Member)
  : IO bool :=
  if match voice member with
     | None => true
     | Some v => bool_decide (channel v = None)
     end
  then
    _ ← respond (mention member +:+ " is not in a voice channel.");
    mret false
  else mret true.

End WithBot.

(** ** The slash-command handlers

    The eight handlers have the same bodies in both files (lines 98-274 of
    [src/insane-moderation/modslash.py], lines 214-390 of
    [src/modslash/modslash.py]).  A [reason] of [None] is the omitted
    argument, which takes the declared default. *)

Section Handlers.
Variable bot : Red.
(** What each platform mutation does when it is awaited. *)
Variable platform : Call → Outcome.

Definition await_call (c : Call) : IO Outcome := (platform c, [Called c]).

Definition kick_slash (interaction : Interaction) (member : Member)
    (reason : option string) : IO unit :=
  let reason := default "No reason provided." reason in
  let author := user interaction in
  if bool_decide (member_id member = member_id author) then
    respond "You cannot kick yourself."
  else if bool_decide (top_role author ≤ top_role member)
          && negb (is_owner bot author) then
    respond "You cannot kick a member with an equal or higher role."
  else if bool_decide (top_role (me (guild interaction)) ≤ top_role member) then
    respond "I cannot kick a member with an equal or higher role than me."
  else
    r ← and_then
      (await_call (member_kick (member_id member)
         ("Kicked by " +:+ name author +:+ " (" +:+ pretty (member_id author)
          +:+ "). Reason: " +:+ reason)))
      (await_respond interaction
         ("Successfully kicked " +:+ mention member
            +:+ ". Reason: " +:+ reason));
    match r with
    | Returned => mret tt
    | RaisedForbidden _ =>
        respond "I don't have the required permissions to kick this user."
    | RaisedException e => respond ("An error occurred: " +:+ e)
    end.

Definition ban_slash (interaction : Interaction) (member : Member)
    (reason : option string) : IO unit :=
  let reason := default "No reason provided." reason in
  let author := user interaction in
  if bool_decide (member_id member = member_id author) then
    respond "You cannot ban yourself."
  else if bool_decide (top_role author ≤ top_role member)
          && negb (is_owner bot author) then
    respond "You cannot ban a member with an equal or higher role."
  else if bool_decide (top_role (me (guild interaction)) ≤ top_role member) then
    respond "I cannot ban a member with an equal or higher role than me."
  else
    r ← and_then
      (await_call (member_ban (member_id member)
         ("Banned by " +:+ name author +:+ " (" +:+ pretty (member_id author)
          +:+ "). Reason: " +:+ reason)))
      (await_respond interaction
         ("Successfully banned " +:+ mention member
            +:+ ". Reason: " +:+ reason));
    match r with
    | Returned => mret tt
    | RaisedForbidden _ =>
        respond "I don't have the required permissions to ban this user."
    | RaisedException e => respond ("An error occurred: " +:+ e)
    end.

Definition mute_slash (interaction : Interaction) (member : Member)
    (reason : option string) : IO unit :=
  let reason := default "No reason provided." reason in
  ok ← _check_voice_channel interaction member;
  if negb ok then mret tt
  else
    let author := user interaction in
    if bool_decide (top_role author ≤ top_role member)
       && negb (is_owner bot author) then
      respond "You cannot mute a member with an equal or higher role."
    else
      r ← and_then
        (await_call (member_edit (member_id member) (Some true) None
           ("Muted by " +:+ name author +:+ " (" +:+ pretty (member_id author)
            +:+ "). Reason: " +:+ reason)))
        (await_respond interaction
           ("Successfully muted " +:+ mention member
              +:+ ". Reason: " +:+ reason));
      match r with
      | Returned => mret tt
      | RaisedForbidden _ =>
          respond "I don't have the required permissions to mute this user."
      | RaisedException e => respond ("An error occurred: " +:+ e)
      end.

Definition unmute_slash (interaction : Interaction) (member : Member)
    : IO unit :=
  ok ← _check_voice_channel interaction member;
  if negb ok then mret tt
  else
    let author := user interaction in
    if bool_decide (top_role author ≤ top_role member)
       && negb (is_owner bot author) then
      respond "You cannot unmute a member with an equal or higher role."
    else
      r ← and_then
        (await_call (member_edit (member_id member) (Some false) None
           ("Unmuted by " +:+ name author +:+ " ("
            +:+ pretty (member_id author) +:+ ").")))
        (await_respond interaction
           ("Successfully unmuted " +:+ mention member +:+ "."));
      match r with
      | Returned => mret tt
      | RaisedForbidden _ =>
          respond "I don't have the required permissions to unmute this user."
      | RaisedException e => respond ("An error occurred: " +:+ e)
      end.

Definition deafen_slash (interaction : Interaction) (member : Member)
    (reason : option string) : IO unit :=
  let reason := default "No reason provided." reason in
  ok ← _check_voice_channel interaction member;
  if negb ok then mret tt
  else
    let author := user interaction in
    if bool_decide (top_role author ≤ top_role member)
       && negb (is_owner bot author) then
      respond "You cannot deafen a member with an equal or higher role."
    else
      r ← and_then
        (await_call (member_edit (member_id member) None (Some true)
           ("Deafened by " +:+ name author +:+ " ("
            +:+ pretty (member_id author) +:+ "). Reason: " +:+ reason)))
        (await_respond interaction
           ("Successfully deafened " +:+ mention member
              +:+ ". Reason: " +:+ reason));
      match r with
      | Returned => mret tt
      | RaisedForbidden _ =>
          respond "I don't have the required permissions to deafen this user."
      | RaisedException e => respond ("An error occurred: " +:+ e)
      end.

Definition undeafen_slash (interaction : Interaction) (member : Member)
    : IO unit :=
  ok ← _check_voice_channel interaction member;
  if negb ok then mret tt
  else
    let author := user interaction in
    if bool_decide (top_role author ≤ top_role member)
       && negb (is_owner bot author) then
      respond "You cannot undeafen a member with an equal or higher role."
    else
      r ← and_then
        (await_call (member_edit (member_id member) None (Some false)
           ("Undeafened by " +:+ name author +:+ " ("
            +:+ pretty (member_id author) +:+ ").")))
        (await_respond interaction
           ("Successfully undeafened " +:+ mention member +:+ "."));
      match r with
      | Returned => mret tt
      | RaisedForbidden _ =>
          respond "I don't have the required permissions to undeafen this user."
      | RaisedException e => respond ("An error occurred: " +:+ e)
      end.

Definition silence_slash (interaction : Interaction) (member : Member)
    (reason : option string) : IO unit :=
  let reason := default "No reason provided." reason in
  ok ← _check_voice_channel interaction member;
  if negb ok then mret tt
  else
    let author := user interaction in
    if bool_decide (top_role author ≤ top_role member)
       && negb (is_owner bot author) then
      respond "You cannot silence a member with an equal or higher role."
    else
      r ← and_then
        (await_call (member_edit (member_id member) (Some true) (Some true)
           ("Silenced by " +:+ name author +:+ " ("
            +:+ pretty (member_id author) +:+ "). Reason: " +:+ reason)))
        (await_respond interaction
           ("Successfully silenced " +:+ mention member
              +:+ ". Reason: " +:+ reason));
      match r with
      | Returned => mret tt
      | RaisedForbidden _ =>
          respond "I don't have the required permissions to silence this user."
      | RaisedException e => respond ("An error occurred: " +:+ e)
      end.

Definition unsilence_slash (interaction : Interaction) (member : Member)
    : IO unit :=
  ok ← _check_voice_channel interaction member;
  if negb ok then mret tt
  else
    let author := user interaction in
    if bool_decide (top_role author ≤ top_role member)
       && negb (is_owner bot author) then
      respond "You cannot unsilence a member with an equal or higher role."
    else
      r ← and_then
        (await_call (member_edit (member_id member) (Some false) (Some false)
           ("Unsilenced by " +:+ name author +:+ " ("
            +:+ pretty (member_id author) +:+ ").")))
        (await_respond interaction
           ("Successfully unsilenced " +:+ mention member +:+ "."));
      match r with
      | Returned => mret tt
      | RaisedForbidden _ =>
          respond "I don't have the required permissions to unsilence this user."
      | RaisedException e => respond ("An error occurred: " +:+ e)
      end.

(** ** The context-menu commands ([src/modslash/modslash.py], lines 33-139)

    A context-menu command has no [reason] parameter; the handler composes
    its own audit reason. *)

Definition kick_context_menu (interaction : Interaction) (member : Member)
    : IO unit :=
  let author := user interaction in
  let reason := "Kicked by " +:+ display_name author +:+ " via context menu." in
  if bool_decide (member_id member = member_id author) then
    respond "You cannot kick yourself."
  else if bool_decide (top_role author ≤ top_role member)
          && negb (is_owner bot author) then
    respond "You cannot kick a member with an equal or higher role."
  else if bool_decide (top_role (me (guild interaction)) ≤ top_role member) then
    respond "I cannot kick a member with an equal or higher role than me."
  else
    r ← and_then
      (await_call (member_kick (member_id member) reason))
      (await_respond interaction
         ("Successfully kicked " +:+ mention member +:+ "."));
    match r with
    | Returned => mret tt
    | RaisedForbidden _ =>
        respond "I don't have the required permissions to kick this user."
    | RaisedException e => respond ("An error occurred: " +:+ e)
    end.

Definition ban_context_menu (interaction : Interaction) (member : Member)
    : IO unit :=
  let author := user interaction in
  let reason := "Banned by " +:+ display_name author +:+ " via context menu." in
  if bool_decide (member_id member = member_id author) then
    respond "You cannot ban yourself."
  else if bool_decide (top_role author ≤ top_role member)
          && negb (is_owner bot author) then
    respond "You cannot ban a member with an equal or higher role."
  else if bool_decide (top_role (me (guild interaction)) ≤ top_role member) then
    respond "I cannot ban a member with an equal or higher role than me."
  else
    r ← and_then
      (await_call (member_ban (member_id member) reason))
      (await_respond interaction
         ("Successfully banned " +:+ mention member +:+ "."));
    match r with
    | Returned => mret tt
    | RaisedForbidden _ =>
        respond "I don't have the required permissions to ban this user."
    | RaisedException e => respond ("An error occurred: " +:+ e)
    end.

Definition mute_context_menu (interaction : Interaction) (member : Member)
    : IO unit :=
  let author := user interaction in
  let reason := "Muted by " +:+ display_name author +:+ " via context menu." in
  if match voice member with
     | None => true
     | Some v => bool_decide (channel v = None)
     end
  then respond (mention member +:+ " is not in a voice channel.")
  else if bool_decide (top_role author ≤ top_role member)
          && negb (is_owner bot author) then
    respond "You cannot mute a member with an equal or higher role."
  else
    r ← and_then
      (await_call (member_edit (member_id member) (Some true) None reason))
      (await_respond interaction
         ("Successfully muted " +:+ mention member +:+ "."));
    match r with
    | Returned => mret tt
    | RaisedForbidden _ =>
        respond "I don't have the required permissions to mute this user."
    | RaisedException e => respond ("An error occurred: " +:+ e)
    end.

Definition deafen_context_menu (interaction : Interaction) (member : Member)
    : IO unit :=
  let author := user interaction in
  let reason := "Deafened by " +:+ display_name author +:+ " via context menu." in
  if match voice member with
     | None => true
     | Some v => bool_decide (channel v = None)
     end
  then respond (mention member +:+ " is not in a voice channel.")
  else if bool_decide (top_role author ≤ top_role member)
          && negb (is_owner bot author) then
    respond "You cannot deafen a member with an equal or higher role."
  else
    r ← and_then
      (await_call (member_edit (member_id member) None (Some true) reason))
      (await_respond interaction
         ("Successfully deafened " +:+ mention member +:+ "."));
    match r with
    | Returned => mret tt
    | RaisedForbidden _ =>
        respond "I don't have the required permissions to deafen this user."
    | RaisedException e => respond ("An error occurred: " +:+ e)
    end.

End Handlers.

(** ** The configuration store

    [async with self.config.guild(g).mod_roles() as mod_roles] reads the
    guild's list, runs the body on it and stores the list the body leaves.
    (The library skips the store when the list is unchanged, which no read
    of the configuration can tell apart.) *)

(** [/modslashset ...] of [src/insane-moderation/modslash.py], lines 54-86. *)
Module insane_moderation.

Definition add_mod_role (self : ModSlash) (interaction : Interaction)
    (role : Role) : IO ModSlash :=
  let mod_roles := mod_roles self (guild interaction) in
  mod_roles ←
    (if bool_decide (role_id role ∈ mod_roles) then
       _ ← respond (role_mention role +:+ " is already a moderator role.");
       mret mod_roles
     else
       let mod_roles := (mod_roles ++ [role_id role])%list in
       _ ← respond (role_mention role
                    +:+ " has been added as a moderator role.");
       mret mod_roles);
  mret (set_mod_roles self (guild interaction) mod_roles).

(** [None] is an uncaught [ValueError] of [mod_roles.remove]. *)
Definition remove_mod_role (self : ModSlash) (interaction : Interaction)
    (role : Role) : option (IO ModSlash) :=
  let mod_roles := mod_roles self (guild interaction) in
  if bool_decide (role_id role ∉ mod_roles) then
    Some (_ ← respond (role_mention role +:+ " is not a moderator role.");
          mret (set_mod_roles self (guild interaction) mod_roles))
  else
    match list_remove (role_id role) mod_roles with
    | None => None
    | Some mod_roles =>
      Some (_ ← respond (role_mention role
                         +:+ " has been removed from the moderator roles.");
            mret (set_mod_roles self (guild interaction) mod_roles))
    end.

Definition list_mod_roles (self : ModSlash) (interaction : Interaction)
    : IO unit :=
  let mod_role_ids := mod_roles self (guild interaction) in
  if bool_decide (mod_role_ids = []) then
    respond "No moderator roles are configured."
  else
    let role_mentions :=
      (λ role_id : Z, "<@&" +:+ pretty role_id +:+ ">") <$> mod_role_ids in
    respond ("Moderator roles: " +:+ String.concat ", " role_mentions).

End insane_moderation.

(** [modslashset ...] prefix commands of [src/modslash/modslash.py],
    lines 174-203: the same bodies, answering with [ctx.send]. *)
Module modslash.

Definition add_mod_role (self : ModSlash) (ctx : Context) (role : Role)
    : IO ModSlash :=
  let mod_roles := mod_roles self (ctx_guild ctx) in
  mod_roles ←
    (if bool_decide (role_id role ∈ mod_roles) then
       _ ← send (role_mention role +:+ " is already a moderator role.");
       mret mod_roles
     else
       let mod_roles := (mod_roles ++ [role_id role])%list in
       _ ← send (role_mention role +:+ " has been added as a moderator role.");
       mret mod_roles);
  mret (set_mod_roles self (ctx_guild ctx) mod_roles).

Definition remove_mod_role (self : ModSlash) (ctx : Context) (role : Role)
    : option (IO ModSlash) :=
  let mod_roles := mod_roles self (ctx_guild ctx) in
  if bool_decide (role_id role ∉ mod_roles) then
    Some (_ ← send (role_mention role +:+ " is not a moderator role.");
          mret (set_mod_roles self (ctx_guild ctx) mod_roles))
  else
    match list_remove (role_id role) mod_roles with
    | None => None
    | Some mod_roles =>
      Some (_ ← send (role_mention role
                      +:+ " has been removed from the moderator roles.");
            mret (set_mod_roles self (ctx_guild ctx) mod_roles))
    end.

Definition list_mod_roles (self : ModSlash) (ctx : Context) : IO unit :=
  let mod_role_ids := mod_roles self (ctx_guild ctx) in
  if bool_decide (mod_role_ids = []) then
    send "No moderator roles are configured."
  else
    let role_mentions :=
      (λ role_id : Z, "<@&" +:+ pretty role_id +:+ ">") <$> mod_role_ids in
    send ("Moderator roles: " +:+ String.concat ", " role_mentions).

End modslash.

(** The cog as first constructed: no guild has a record yet. *)
Definition fresh_cog : ModSlash := {| config := ∅ |}.

(** The cog states that configuration commands can produce. *)
Inductive reachable : ModSlash → Prop :=
| reach_fresh : reachable fresh_cog
| reach_add_slash self interaction role :
    reachable self →
    reachable (result (insane_moderation.add_mod_role self interaction role))
| reach_remove_slash self interaction role m :
    reachable self →
    insane_moderation.remove_mod_role self interaction role = Some m →
    reachable (result m)
| reach_add_prefix self ctx role :
    reachable self →
    reachable (result (modslash.add_mod_role self ctx role))
| reach_remove_prefix self ctx role m :
    reachable self →
    modslash.remove_mod_role self ctx role = Some m →
    reachable (result m).

(** ** The command surface *)

Inductive Action :=
| Kick | Ban | Mute | Unmute | Deafen | Undeafen | Silence | Unsilence.

Global Instance Action_eq_dec : EqDecision Action.
Proof. solve_decision. Defined.

(** The verb each handler uses in its messages. *)
Definition action_name (a : Action) : string :=
  match a with
  | Kick => "kick" | Ban => "ban"
  | Mute => "mute" | Unmute => "unmute"
  | Deafen => "deafen" | Undeafen => "undeafen"
  | Silence => "silence" | Unsilence => "unsilence"
  end.

Definition is_voice_action (a : Action) : bool :=
  match a with Kick | Ban => false | _ => true end.

(** The slash command of an action.  [/unmute], [/undeafen] and [/unsilence]
    declare no [reason] parameter. *)
Definition slash (bot : Red) (platform : Call → Outcome) (a : Action)
    (interaction : Interaction) (member : Member) (reason : option string)
    : IO unit :=
  match a with
  | Kick => kick_slash bot platform interaction member reason
  | Ban => ban_slash bot platform interaction member reason
  | Mute => mute_slash bot platform interaction member reason
  | Unmute => unmute_slash bot platform interaction member
  | Deafen => deafen_slash bot platform interaction member reason
  | Undeafen => undeafen_slash bot platform interaction member
  | Silence => silence_slash bot platform interaction member reason
  | Unsilence => unsilence_slash bot platform interaction member
  end.

(** The context-menu command of an action, for the four that have one. *)
Definition context_menu (bot : Red) (platform : Call → Outcome) (a : Action)
    : option (Interaction → Member → IO unit) :=
  match a with
  | Kick => Some (kick_context_menu bot platform)
  | Ban => Some (ban_context_menu bot platform)
  | Mute => Some (mute_context_menu bot platform)
  | Deafen => Some (deafen_context_menu bot platform)
  | _ => None
  end.

(** The mutation without its audit reason: method, target and flags. *)
Definition call_kind (c : Call) : Call :=
  match c with
  | member_kick t _ => member_kick t ""
  | member_ban t _ => member_ban t ""
  | member_edit t m d _ => member_edit t m d ""
  end.

Definition call_reason (c : Call) : string :=
  match c with
  | member_kick _ r | member_ban _ r | member_edit _ _ _ r => r
  end.

Definition call_target (c : Call) : Z :=
  match c with
  | member_kick t _ | member_ban t _ | member_edit t _ _ _ => t
  end.

(** ** Messages the specification names *)

Definition self_target_message (a : Action) : string :=
  "You cannot " +:+ action_name a +:+ " yourself.".

Definition actor_outranked_message (a : Action) : string :=
  "You cannot " +:+ action_name a +:+ " a member with an equal or higher role.".

Definition bot_outranked_message (a : Action) : string :=
  "I cannot " +:+ action_name a
  +:+ " a member with an equal or higher role than me.".

Definition permission_denied_message (a : Action) : string :=
  "I don't have the required permissions to " +:+ action_name a
  +:+ " this user.".

Definition not_in_voice_message (m : Member) : string :=
  mention m +:+ " is not in a voice channel.".

(** The target has an active voice-channel presence. *)
Definition in_voice_channel (m : Member) : Prop :=
  ∃ v ch, voice m = Some v ∧ channel v = Some ch.

(** The verb of an audit reason. *)
Definition audit_verb (a : Action) : string :=
  match a with
  | Kick => "Kicked" | Ban => "Banned"
  | Mute => "Muted" | Unmute => "Unmuted"
  | Deafen => "Deafened" | Undeafen => "Undeafened"
  | Silence => "Silenced" | Unsilence => "Unsilenced"
  end.

(** The audit reason a slash command composes, for the actions that take a
    [reason]. *)
Definition slash_audit_reason (a : Action) (author : Member)
    (reason : option string) : string :=
  audit_verb a +:+ " by " +:+ name author +:+ " ("
  +:+ pretty (member_id author) +:+ "). Reason: "
  +:+ default "No reason provided." reason.

(** The audit reason a context-menu command composes. *)
Definition menu_audit_reason (a : Action) (author : Member) : string :=
  audit_verb a +:+ " by " +:+ display_name author +:+ " via context menu.".

(** The guards a handler evaluates before it calls the platform: the voice
    actions require a voice-channel presence; kick and ban require that the
    target is not the actor and that the bot outranks the target; every
    action requires that the actor outranks the target or is the owner. *)
Definition checks_pass (bot : Red) (a : Action) (interaction : Interaction)
    (member : Member) : Prop :=
  (if is_voice_action a then in_voice_channel member
   else member_id member ≠ member_id (user interaction)
        ∧ top_role member < top_role (me (guild interaction)))
  ∧ (top_role member < top_role (user interaction)
     ∨ is_owner bot (user interaction) = true).

(** How often an id occurs in a list. *)
Definition occurrences (x : Z) (l : list Z) : nat :=
  length (filter (λ y, y = x) l).


(** The entry points of an action: its slash command, and its context-menu
    command when it has one. *)
Definition entry_points (bot : Red) (platform : Call → Outcome) (a : Action)
    (reason : option string) : list (Interaction → Member → IO unit) :=
  (λ interaction member, slash bot platform a interaction member reason)
  :: option_list (context_menu bot platform a).

(** The response to the outcome of the mutation. *)
Definition reply_to (a : Action) (success : string) (o : Outcome) : string :=
  match o with
  | Returned => success
  | RaisedForbidden _ => permission_denied_message a
  | RaisedException e => "An error occurred: " +:+ e
  end.

(** What a handler sends after its mutation was awaited with outcome [o]:
    the confirmation if the mutation returned, followed by the failure
    message if sending the confirmation raised; the failure message alone if
    the mutation raised. *)
Definition settle (a : Action) (interaction : Interaction) (success : string)
    (o : Outcome) : list Event :=
  match o with
  | Returned =>
      send_message success true
      :: match response interaction success with
         | Returned => []
         | raised => [send_message (reply_to a success raised) true]
         end
  | raised => [send_message (reply_to a success raised) true]
  end.

(** ** Descriptions used by the further properties *)

(** The slash commands that declare a [reason] parameter. *)
Definition takes_reason (a : Action) : bool :=
  match a with Unmute | Undeafen | Unsilence => false | _ => true end.

(** The verb of a success confirmation. *)
Definition success_verb (a : Action) : string :=
  match a with
  | Kick => "kicked" | Ban => "banned"
  | Mute => "muted" | Unmute => "unmuted"
  | Deafen => "deafened" | Undeafen => "undeafened"
  | Silence => "silenced" | Unsilence => "unsilenced"
  end.

(** The platform method of each action, with the flags it passes. *)
Definition action_call (a : Action) (target : Z) (audit : string) : Call :=
  match a with
  | Kick => member_kick target audit
  | Ban => member_ban target audit
  | Mute => member_edit target (Some true) None audit
  | Unmute => member_edit target (Some false) None audit
  | Deafen => member_edit target None (Some true) audit
  | Undeafen => member_edit target None (Some false) audit
  | Silence => member_edit target (Some true) (Some true) audit
  | Unsilence => member_edit target (Some false) (Some false) audit
  end.

(** The mutation a slash command invokes. *)
Definition slash_call (a : Action) (author member : Member)
    (reason : option string) : Call :=
  action_call a (member_id member)
    (if takes_reason a then slash_audit_reason a author reason
     else audit_verb a +:+ " by " +:+ name author +:+ " ("
          +:+ pretty (member_id author) +:+ ").").

(** The confirmation a slash command sends when the mutation returns. *)
Definition slash_success (a : Action) (member : Member)
    (reason : option string) : string :=
  "Successfully " +:+ success_verb a +:+ " " +:+ mention member
  +:+ (if takes_reason a
       then ". Reason: " +:+ default "No reason provided." reason
       else ".").

(** The mutation and the confirmation of a context-menu command. *)
Definition menu_call (a : Action) (author member : Member) : Call :=
  action_call a (member_id member) (menu_audit_reason a author).

Definition menu_success (a : Action) (member : Member) : string :=
  "Successfully " +:+ success_verb a +:+ " " +:+ mention member +:+ ".".

(** The action that undoes a voice action. *)
Definition inverse_action (a : Action) : option Action :=
  match a with
  | Mute => Some Unmute
  | Deafen => Some Undeafen
  | Silence => Some Unsilence
  | _ => None
  end.

(** The voice flags a mutation sets: [(mute, deafen)]. *)
Definition call_flags (c : Call) : option bool * option bool :=
  match c with
  | member_edit _ m d _ => (m, d)
  | _ => (None, None)
  end.

Definition opposite_flags (f : option bool * option bool)
    : option bool * option bool :=
  (negb <$> f.1, negb <$> f.2).

(** The responses of a trace: everything but the platform calls. *)
Definition is_response (e : Event) : bool :=
  match e with Called _ => false | _ => true end.

Definition responses (t : list Event) : list Event :=
  filter (λ e, is_response e) t.

(** An interaction response, as the same text sent with [ctx.send]. *)
Definition to_ctx (e : Event) : Event :=
  match e with
  | send_message content _ => ctx_send content
  | _ => e
  end.

(** The bot once the loaded cog is in state [cog]. *)
Definition with_cog (bot : Red) (cog : ModSlash) : Red :=
  {| is_owner := is_owner bot;
     get_cog := λ n, if decide (n = "ModSlash") then Some cog else get_cog bot n |}.

(** How [listroles] renders a configured id. *)
Definition listed (role_id : Z) : string := "<@&" +:+ pretty role_id +:+ ">".

(** ** Concrete guild used by the examples *)

Module Demo.

Definition lounge : VoiceState := {| channel := Some 77 |}.
Definition moderators : Role := {| role_id := 10; role_mention := "<@&10>" |}.
Definition helpers : Role := {| role_id := 11; role_mention := "<@&11>" |}.

Definition alice : Member :=
  {| member_id := 1; name := "alice"; display_name := "Alice";
     mention := "<@1>"; roles := [moderators]; top_role := 5;
     voice := Some lounge |}.

Definition bob : Member :=
  {| member_id := 2; name := "bob"; display_name := "Bob";
     mention := "<@2>"; roles := []; top_role := 3; voice := Some lounge |}.

Definition carol : Member :=
  {| member_id := 3; name := "carol"; display_name := "Carol";
     mention := "<@3>"; roles := [helpers]; top_role := 1; voice := None |}.

Definition modbot : Member :=
  {| member_id := 9; name := "modbot"; display_name := "ModBot";
     mention := "<@9>"; roles := []; top_role := 2; voice := None |}.

Definition home : Guild := {| guild_id := 100; me := modbot |}.

(** Every response is delivered. *)
Definition delivered : string → Outcome := λ _, Returned.

(** The interaction has expired: no response can be delivered. *)
Definition expired : string → Outcome :=
  λ _, RaisedException
         "404 Not Found (error code: 10062): Unknown interaction".

Definition by_alice : Interaction :=
  {| user := alice; guild := home; response := delivered |}.
Definition by_carol : Interaction :=
  {| user := carol; guild := home; response := delivered |}.
Definition by_alice_expired : Interaction :=
  {| user := alice; guild := home; response := expired |}.

Definition cog : ModSlash := {| config := {[ 100 := [10] ]} |}.

(** Nobody is the owner. *)
Definition bot : Red :=
  {| is_owner := λ _, false; get_cog := λ _, Some cog |}.

(** Nobody is the owner, and the cog is not registered. *)
Definition unloaded_bot : Red :=
  {| is_owner := λ _, false; get_cog := λ _, None |}.

(** Alice is the owner. *)
Definition alices_bot : Red :=
  {| is_owner := λ m, bool_decide (member_id m = 1);
     get_cog := λ _, Some cog |}.

Definition obliging : Call → Outcome := λ _, Returned.
Definition forbidding : Call → Outcome :=
  λ _, RaisedForbidden "403 Forbidden (error code: 50013): Missing Permissions".
Definition failing : Call → Outcome :=
  λ _, RaisedException "500 Internal Server Error".

End Demo.

(** ** Proof automation *)

Ltac unfold_io :=
  unfold trace, result, respond, send, and_then, await_call, await_respond,
    mbind, IO_bind, mret, IO_ret in *.

Ltac unfold_handlers :=
  unfold slash, context_menu,
    kick_slash, ban_slash, mute_slash, unmute_slash, deafen_slash,
    undeafen_slash, silence_slash, unsilence_slash,
    kick_context_menu, ban_context_menu, mute_context_menu,
    deafen_context_menu, _check_voice_channel in *;
  unfold_io.

Ltac case_handler :=
  repeat match goal with
         | |- context [voice ?m] => destruct (voice m) as [[[?|]]|] eqn:?; cbn
         | |- context [bool_decide ?P] => case_bool_decide; cbn
         | |- context [is_owner ?b ?m] => destruct (is_owner b m) eqn:?; cbn
         end.

Ltac case_outcomes :=
  repeat match goal with
         | |- context [match ?o with
                       | Returned => _
                       | RaisedForbidden _ => _
                       | RaisedException _ => _
                       end] => destruct o eqn:?; cbn
         end.

Ltac case_entry_point a h H :=
  destruct a; cbn in H;
  repeat (apply elem_of_cons in H as [H|H]; [subst h|]);
  try (by apply elem_of_nil in H);
  unfold_handlers.


(** ** The configuration store *)

Lemma mod_roles_set_same self g l : mod_roles (set_mod_roles self g l) g = l.
Proof. unfold mod_roles, set_mod_roles; cbn. by rewrite lookup_insert_eq. Qed.

Lemma mod_roles_set self g l g' :
  mod_roles (set_mod_roles self g l) g'
  = if decide (guild_id g = guild_id g') then l else mod_roles self g'.
Proof.
  unfold mod_roles, set_mod_roles; cbn.
  rewrite lookup_insert. by case_decide.
Qed.

Lemma mod_roles_set_id self g g' :
  mod_roles (set_mod_roles self g (mod_roles self g)) g' = mod_roles self g'.
Proof.
  rewrite mod_roles_set. case_decide as Hg; [|done].
  unfold mod_roles. by rewrite Hg.
Qed.

Lemma list_remove_elem_of x l : x ∈ l → is_Some (list_remove x l).
Proof.
  induction l as [|y l IH]; [by intros ?%elem_of_nil|].
  intros Hx; cbn. case_decide as Hy; [by eexists|].
  apply elem_of_cons in Hx as [->|Hx]; [done|].
  destruct (IH Hx) as [l' ->]. by eexists.
Qed.

Lemma list_remove_subseteq x l l' : list_remove x l = Some l' → l' ⊆ l.
Proof.
  revert l'. induction l as [|y l IH]; intros l'; cbn; [done|].
  case_decide.
  - intros [= <-] z Hz. by right.
  - destruct (list_remove x l) as [k|]; [|done].
    intros [= <-] z [->|Hz]%elem_of_cons; [left|right; by apply (IH k)].
Qed.

Lemma list_remove_NoDup x l l' :
  NoDup l → list_remove x l = Some l' → NoDup l'.
Proof.
  intros Hl. revert l'. induction Hl as [|y l Hy Hl IH]; intros l'; cbn; [done|].
  case_decide.
  - by intros [= <-].
  - destruct (list_remove x l) as [k|] eqn:Hk; [|done].
    intros [= <-]. constructor; [|by apply IH].
    intros Hin. apply Hy. by eapply list_remove_subseteq.
Qed.

Lemma NoDup_snoc (x : Z) l : x ∉ l → NoDup l → NoDup (l ++ [x]).
Proof.
  intros Hx Hl. apply NoDup_app. split_and!; [done| |apply NoDup_singleton].
  intros y Hy ->%list_elem_of_singleton. done.
Qed.

(** Both removal commands are total: the membership test guards
    [list.remove]. *)
Lemma remove_mod_role_total self interaction role :
  is_Some (insane_moderation.remove_mod_role self interaction role).
Proof.
  unfold insane_moderation.remove_mod_role.
  case_bool_decide as Hin; [by eexists|].
  destruct (list_remove_elem_of _ _ Hin) as [l ->]. by eexists.
Qed.


(** The list a configuration command leaves is duplicate-free if the one it
    found was. *)
Lemma add_mod_role_NoDup self interaction role :
  (∀ g, NoDup (mod_roles self g)) →
  ∀ g, NoDup (mod_roles
                (result (insane_moderation.add_mod_role self interaction role)) g).
Proof.
  intros Hnd g. unfold insane_moderation.add_mod_role.
  case_bool_decide as Hin; unfold_io; cbn.
  - by rewrite mod_roles_set_id.
  - rewrite mod_roles_set. case_decide; [|done]. by apply NoDup_snoc.
Qed.

Lemma prefix_add_mod_role_NoDup self ctx role :
  (∀ g, NoDup (mod_roles self g)) →
  ∀ g, NoDup (mod_roles (result (modslash.add_mod_role self ctx role)) g).
Proof.
  intros Hnd g. unfold modslash.add_mod_role.
  case_bool_decide as Hin; unfold_io; cbn.
  - by rewrite mod_roles_set_id.
  - rewrite mod_roles_set. case_decide; [|done]. by apply NoDup_snoc.
Qed.

Lemma remove_mod_role_NoDup self interaction role m :
  (∀ g, NoDup (mod_roles self g)) →
  insane_moderation.remove_mod_role self interaction role = Some m →
  ∀ g, NoDup (mod_roles (result m) g).
Proof.
  intros Hnd Hm g. unfold insane_moderation.remove_mod_role in Hm.
  case_bool_decide as Hin.
  - injection Hm as <-. unfold_io; cbn. by rewrite mod_roles_set_id.
  - destruct (list_remove _ _) as [l|] eqn:Hl; [|done].
    injection Hm as <-. unfold_io; cbn.
    rewrite mod_roles_set. case_decide; [|done].
    by eapply list_remove_NoDup.
Qed.

Lemma prefix_remove_mod_role_NoDup self ctx role m :
  (∀ g, NoDup (mod_roles self g)) →
  modslash.remove_mod_role self ctx role = Some m →
  ∀ g, NoDup (mod_roles (result m) g).
Proof.
  intros Hnd Hm g. unfold modslash.remove_mod_role in Hm.
  case_bool_decide as Hin.
  - injection Hm as <-. unfold_io; cbn. by rewrite mod_roles_set_id.
  - destruct (list_remove _ _) as [l|] eqn:Hl; [|done].
    injection Hm as <-. unfold_io; cbn.
    rewrite mod_roles_set. case_decide; [|done].
    by eapply list_remove_NoDup.
Qed.

Lemma reachable_NoDup self : reachable self → ∀ g, NoDup (mod_roles self g).
Proof.
  induction 1 as [|self i role _ IH|self i role m _ IH Hm
                   |self ctx role _ IH|self ctx role m _ IH Hm].
  - intros g. unfold mod_roles, fresh_cog; cbn. rewrite lookup_empty. constructor.
  - by apply add_mod_role_NoDup.
  - by eapply remove_mod_role_NoDup.
  - by apply prefix_add_mod_role_NoDup.
  - by eapply prefix_remove_mod_role_NoDup.
Qed.

Lemma occurrences_absent x l : x ∉ l → occurrences x l = 0%nat.
Proof.
  unfold occurrences. induction l as [|y l IH]; [done|].
  intros [Hy Hl]%not_elem_of_cons. rewrite filter_cons.
  case_decide; [congruence|]. by apply IH.
Qed.

Lemma occurrences_NoDup x l : NoDup l → x ∈ l → occurrences x l = 1%nat.
Proof.
  induction 1 as [|y l Hy Hl IH]; [by intros ?%elem_of_nil|].
  intros Hin. unfold occurrences in *. rewrite filter_cons. case_decide as Heq.
  - subst y. cbn. f_equal. by apply occurrences_absent.
  - apply elem_of_cons in Hin as [?|Hin]; [congruence|]. by apply IH.
Qed.

(** ** The authorization guard *)

(** The guard's intersection test is the existence of a shared role id. *)
Lemma shares_mod_role (rs : list Role) (ids : list Z) :
  (list_to_set (role_id <$> rs) : gset Z) ∩ list_to_set ids ≠ ∅
  ↔ ∃ r, r ∈ rs ∧ role_id r ∈ ids.
Proof.
  split.
  - intros [x Hx]%set_choose_L.
    apply elem_of_intersection in Hx as [Hl Hr].
    apply elem_of_list_to_set, list_elem_of_fmap in Hl as (r & -> & Hr').
    apply elem_of_list_to_set in Hr. eauto.
  - intros (r & Hr & Hid) Hempty.
    assert (role_id r ∈ (list_to_set (role_id <$> rs) : gset Z)
                        ∩ list_to_set ids) as Hin.
    { apply elem_of_intersection. split; apply elem_of_list_to_set; [|done].
      apply list_elem_of_fmap. eauto. }
    rewrite Hempty in Hin. by apply not_elem_of_empty in Hin.
Qed.

(** Without the cog the guard denies silently; the source marks the branch
    "Should not happen". *)
Lemma is_mod_check_without_cog bot interaction :
  is_owner bot (user interaction) = false →
  get_cog bot "ModSlash" = None →
  is_mod_check bot interaction = (false, []).
Proof. intros Ho Hc. unfold is_mod_check. by rewrite Ho, Hc. Qed.

(** C3, as the code has it. The authorization guard returns true, with no
    notice, for every owner, whatever is configured. For an actor who is not
    the owner and with the cog registered, it returns false with the "no
    roles configured" notice when the guild's moderator role list is empty;
    otherwise it returns true, with no notice, when the actor holds a
    configured moderator role, and false with the single ephemeral notice
    "You do not have the required role to use this command." when the actor
    holds none. When the cog is not registered it returns false for such an
    actor and sends no notice. *)
Theorem is_mod_check_spec bot interaction :
  let actor := user interaction in
  let denied notice := (false, [send_message notice true]) in
  (is_owner bot actor = true → is_mod_check bot interaction = (true, []))
  ∧ (is_owner bot actor = false →
     match get_cog bot "ModSlash" with
     | None => is_mod_check bot interaction = (false, [])
     | Some cog =>
         let ids := mod_roles cog (guild interaction) in
         (ids = [] →
          is_mod_check bot interaction
          = denied "No moderator roles have been configured on this server.")
         ∧ (ids ≠ [] → (∃ r, r ∈ roles actor ∧ role_id r ∈ ids) →
            is_mod_check bot interaction = (true, []))
         ∧ (ids ≠ [] → ¬ (∃ r, r ∈ roles actor ∧ role_id r ∈ ids) →
            is_mod_check bot interaction
            = denied "You do not have the required role to use this command.")
     end).
Proof.
  intros actor denied. subst actor denied. unfold is_mod_check.
  destruct (is_owner bot (user interaction)); [by split|].
  split; [done|]. intros _.
  destruct (get_cog bot "ModSlash") as [cog|]; [|done]. cbv zeta.
  unfold_io; cbn. split_and!.
  - intros Hnil. by rewrite bool_decide_true.
  - intros Hne Hshare. rewrite bool_decide_false by done.
    rewrite bool_decide_false; [done|]. by apply shares_mod_role.
  - intros Hne Hnone. rewrite bool_decide_false by done.
    rewrite bool_decide_true; [done|].
    apply dec_stable. intros Hshare. by apply Hnone, shares_mod_role.
Qed.

Lemma is_mod_check_spec_witness :
  is_mod_check Demo.bot Demo.by_carol
  = (false,
     [send_message "You do not have the required role to use this command."
                   true]).
Proof.
  pose proof (is_mod_check_spec Demo.bot Demo.by_carol) as [_ Hcarol].
  specialize (Hcarol eq_refl). cbn in Hcarol.
  destruct Hcarol as (_ & _ & Hdenied).
  apply Hdenied; [discriminate|].
  intros (r & Hr & Hin). vm_compute in Hr, Hin.
  apply list_elem_of_singleton in Hr. subst r.
  apply list_elem_of_singleton in Hin. discriminate Hin.
Defined.

(** C3 fails when the cog is not registered: Carol, who is not the owner,
    is denied by a bot without the cog, and no notice is sent (source lines
    16-18). *)
Lemma guard_silent_without_cog :
  ¬ ∀ bot interaction,
      result (is_mod_check bot interaction) = false →
      ∃ notice,
        trace (is_mod_check bot interaction) = [send_message notice true].
Proof.
  intros Hclaim.
  destruct (Hclaim Demo.unloaded_bot Demo.by_carol eq_refl) as [notice Hn].
  discriminate Hn.
Qed.

(** ** The configuration commands *)

(** What [addrole] leaves in each guild's list. *)
Lemma add_mod_role_roles self interaction role g :
  mod_roles (result (insane_moderation.add_mod_role self interaction role)) g
  = if decide (guild_id (guild interaction) = guild_id g) then
      let l := mod_roles self (guild interaction) in
      if bool_decide (role_id role ∈ l) then l else (l ++ [role_id role])%list
    else mod_roles self g.
Proof.
  unfold insane_moderation.add_mod_role.
  case_bool_decide; unfold_io; cbn; by rewrite mod_roles_set.
Qed.

Lemma prefix_add_mod_role_roles self ctx role g :
  mod_roles (result (modslash.add_mod_role self ctx role)) g
  = if decide (guild_id (ctx_guild ctx) = guild_id g) then
      let l := mod_roles self (ctx_guild ctx) in
      if bool_decide (role_id role ∈ l) then l else (l ++ [role_id role])%list
    else mod_roles self g.
Proof.
  unfold modslash.add_mod_role.
  case_bool_decide; unfold_io; cbn; by rewrite mod_roles_set.
Qed.

Lemma added_role_present (x : Z) l :
  x ∈ (if bool_decide (x ∈ l) then l else (l ++ [x])%list).
Proof. case_bool_decide; [done|]. apply elem_of_app. right. by left. Qed.

Lemma added_role_NoDup (x : Z) l :
  NoDup l → NoDup (if bool_decide (x ∈ l) then l else (l ++ [x])%list).
Proof. intros Hl. case_bool_decide; [done|]. by apply NoDup_snoc. Qed.

(** C8. On every duplicate-free configuration of a guild, adding the same
    role twice leaves exactly one occurrence of its id in the guild's list,
    and the second call answers "already a moderator role" and changes no
    guild's list; consequently no configuration that the commands can
    produce contains duplicates. *)
Theorem add_mod_role_idempotent :
  (∀ self interaction role,
     NoDup (mod_roles self (guild interaction)) →
     let once := insane_moderation.add_mod_role self interaction role in
     let twice := insane_moderation.add_mod_role (result once) interaction role in
     let g := guild interaction in
     occurrences (role_id role) (mod_roles (result twice) g) = 1%nat
     ∧ trace twice
       = [send_message (role_mention role +:+ " is already a moderator role.")
                       true]
     ∧ (∀ g', mod_roles (result twice) g' = mod_roles (result once) g')
     ∧ NoDup (mod_roles (result twice) g))
  ∧ (∀ self, reachable self → ∀ g, NoDup (mod_roles self g)).
Proof.
  split; [|apply reachable_NoDup].
  intros self interaction role Hnd once twice g.
  assert (role_id role ∈ mod_roles (result once) g) as Hin.
  { subst once g. rewrite add_mod_role_roles, decide_True by done.
    apply added_role_present. }
  assert (NoDup (mod_roles (result once) g)) as Hnd1.
  { subst once g. rewrite add_mod_role_roles, decide_True by done.
    by apply added_role_NoDup. }
  assert (∀ g', mod_roles (result twice) g' = mod_roles (result once) g') as Hsame.
  { intros g'. subst twice. unfold insane_moderation.add_mod_role at 1.
    fold g. rewrite bool_decide_true by done. unfold_io; cbn.
    apply mod_roles_set_id. }
  split_and!.
  - rewrite Hsame. by apply occurrences_NoDup.
  - subst twice. unfold insane_moderation.add_mod_role at 1.
    fold g. rewrite bool_decide_true by done. by unfold_io.
  - done.
  - by rewrite Hsame.
Qed.

Lemma add_mod_role_idempotent_witness :
  NoDup (mod_roles fresh_cog Demo.home)
  ∧ mod_roles
      (result (insane_moderation.add_mod_role
                 (result (insane_moderation.add_mod_role
                            fresh_cog Demo.by_alice Demo.moderators))
                 Demo.by_alice Demo.moderators))
      Demo.home = [10]
  ∧ NoDup (mod_roles Demo.cog Demo.home).
Proof.
  assert (NoDup (mod_roles fresh_cog Demo.home)) as Hnd by constructor.
  destruct add_mod_role_idempotent as [Htwice Hinv].
  destruct (Htwice fresh_cog Demo.by_alice Demo.moderators Hnd)
    as (_ & _ & Hsame & _).
  split_and!; [exact Hnd|by rewrite Hsame|].
  apply (Hinv (result (insane_moderation.add_mod_role
                         fresh_cog Demo.by_alice Demo.moderators))).
  apply reach_add_slash, reach_fresh.
Defined.

(** The prefix command [modslashset addrole] behaves the same way. *)
Lemma prefix_add_mod_role_idempotent self ctx role :
  NoDup (mod_roles self (ctx_guild ctx)) →
  let once := modslash.add_mod_role self ctx role in
  let twice := modslash.add_mod_role (result once) ctx role in
  let g := ctx_guild ctx in
  occurrences (role_id role) (mod_roles (result twice) g) = 1%nat
  ∧ trace twice = [ctx_send (role_mention role +:+ " is already a moderator role.")]
  ∧ (∀ g', mod_roles (result twice) g' = mod_roles (result once) g').
Proof.
  intros Hnd once twice g.
  assert (role_id role ∈ mod_roles (result once) g) as Hin.
  { subst once g. rewrite prefix_add_mod_role_roles, decide_True by done.
    apply added_role_present. }
  assert (NoDup (mod_roles (result once) g)) as Hnd1.
  { subst once g. rewrite prefix_add_mod_role_roles, decide_True by done.
    by apply added_role_NoDup. }
  assert (∀ g', mod_roles (result twice) g' = mod_roles (result once) g') as Hsame.
  { intros g'. subst twice. unfold modslash.add_mod_role at 1.
    fold g. rewrite bool_decide_true by done. unfold_io; cbn.
    apply mod_roles_set_id. }
  split_and!; [|subst twice|done].
  - rewrite Hsame. by apply occurrences_NoDup.
  - unfold modslash.add_mod_role at 1.
    fold g. rewrite bool_decide_true by done. by unfold_io.
Qed.

(** C9. Removing a role that is not in the guild's moderator role list
    raises nothing, answers "not a moderator role" and leaves every guild's
    list unchanged. *)
Theorem remove_absent_mod_role self interaction role :
  role_id role ∉ mod_roles self (guild interaction) →
  ∃ self',
    insane_moderation.remove_mod_role self interaction role
    = Some (self',
            [send_message (role_mention role +:+ " is not a moderator role.")
                          true])
    ∧ ∀ g, mod_roles self' g = mod_roles self g.
Proof.
  intros Hnot. unfold insane_moderation.remove_mod_role.
  rewrite bool_decide_true by done. unfold_io; cbn.
  eexists. split; [reflexivity|]. intros g. apply mod_roles_set_id.
Qed.

Lemma remove_absent_mod_role_witness :
  ∃ self',
    insane_moderation.remove_mod_role Demo.cog Demo.by_alice Demo.helpers
    = Some (self', [send_message "<@&11> is not a moderator role." true])
    ∧ ∀ g, mod_roles self' g = mod_roles Demo.cog g.
Proof.
  apply (remove_absent_mod_role Demo.cog Demo.by_alice Demo.helpers).
  vm_compute. intros Hin. repeat (apply elem_of_cons in Hin as [Hin|Hin]; [done|]).
  by apply elem_of_nil in Hin.
Defined.

(** The prefix command [modslashset removerole] behaves the same way. *)
Lemma prefix_remove_absent_mod_role self ctx role :
  role_id role ∉ mod_roles self (ctx_guild ctx) →
  ∃ self',
    modslash.remove_mod_role self ctx role
    = Some (self', [ctx_send (role_mention role +:+ " is not a moderator role.")])
    ∧ ∀ g, mod_roles self' g = mod_roles self g.
Proof.
  intros Hnot. unfold modslash.remove_mod_role.
  rewrite bool_decide_true by done. unfold_io; cbn.
  eexists. split; [reflexivity|]. intros g. apply mod_roles_set_id.
Qed.

(** ** The action handlers *)

Section Dispatch.
Variable bot : Red.
Variable platform : Call → Outcome.

(** An entry point either rejects with one ephemeral notice, or calls the
    platform once and then answers as [settle] describes. *)
Lemma entry_point_shape a reason h interaction member :
  h ∈ entry_points bot platform a reason →
  (∃ notice, h interaction member = (tt, [send_message notice true]))
  ∨ (∃ c success,
       h interaction member
       = (tt, Called c :: settle a interaction success (platform c))).
Proof.
  intros Hh. case_entry_point a h Hh; case_handler; eauto;
    match goal with
    | |- context [platform ?c] =>
        right; exists c;
        match goal with |- context [response _ ?s] => exists s end;
        unfold settle; destruct (platform c); cbn; case_outcomes; reflexivity
    end.
Qed.

(** The pass path of a slash command: its own call, then [settle]. *)
Lemma slash_pass_path a interaction member reason :
  checks_pass bot a interaction member →
  let c := slash_call a (user interaction) member reason in
  slash bot platform a interaction member reason
  = (tt, Called c
         :: settle a interaction (slash_success a member reason) (platform c)).
Proof.
  intros [Hfirst Hsecond] c. subst c.
  assert (bool_decide (top_role (user interaction) ≤ top_role member)
          && negb (is_owner bot (user interaction)) = false) as Hactor.
  { destruct Hsecond as [Hlt| ->]; [|by rewrite andb_false_r].
    by rewrite bool_decide_false by lia. }
  destruct a; cbn in Hfirst;
    try destruct Hfirst as ([chan] & ch & Hv & Hch);
    try destruct Hfirst as [Hne Hbot]; simplify_eq/=;
    unfold_handlers; rewrite ?Hv; cbn; rewrite Hactor;
    rewrite ?(bool_decide_false (member_id member = _)) by done;
    rewrite ?(bool_decide_false (top_role (me _) ≤ _)) by lia; cbn;
    match goal with
    | |- context [Called ?c :: _] =>
        match goal with
        | |- _ = (_, Called ?c' :: settle _ ?i ?s' _) =>
            match goal with
            | |- context [response _ ?s] =>
                change c' with c; change s' with s; unfold settle;
                destruct (platform c); cbn; [destruct (response i s)|..]; done
            end
        end
    end.
Qed.

(** The pass path of a context-menu command. *)
Lemma menu_pass_path a h interaction member :
  context_menu bot platform a = Some h →
  checks_pass bot a interaction member →
  let c := menu_call a (user interaction) member in
  h interaction member
  = (tt, Called c
         :: settle a interaction (menu_success a member) (platform c)).
Proof.
  intros Hh [Hfirst Hsecond] c. subst c.
  assert (bool_decide (top_role (user interaction) ≤ top_role member)
          && negb (is_owner bot (user interaction)) = false) as Hactor.
  { destruct Hsecond as [Hlt| ->]; [|by rewrite andb_false_r].
    by rewrite bool_decide_false by lia. }
  destruct a; cbn in Hh; try discriminate; injection Hh as <-;
    cbn in Hfirst;
    try destruct Hfirst as ([chan] & ch & Hv & Hch);
    try destruct Hfirst as [Hne Hbot]; simplify_eq/=;
    unfold_handlers; rewrite ?Hv; cbn; rewrite Hactor;
    rewrite ?(bool_decide_false (member_id member = _)) by done;
    rewrite ?(bool_decide_false (top_role (me _) ≤ _)) by lia; cbn;
    match goal with
    | |- context [Called ?c :: _] =>
        match goal with
        | |- _ = (_, Called ?c' :: settle _ ?i ?s' _) =>
            match goal with
            | |- context [response _ ?s] =>
                change c' with c; change s' with s; unfold settle;
                destruct (platform c); cbn; [destruct (response i s)|..]; done
            end
        end
    end.
Qed.

Lemma calls_after_call c t : calls (Called c :: t) = c :: calls t.
Proof. reflexivity. Qed.

Lemma calls_settle a interaction success o :
  calls (settle a interaction success o) = [].
Proof.
  unfold settle. destruct o; [destruct (response interaction success)|..]; done.
Qed.

(** A call is made only when the guards pass. *)
Lemma call_needs_pass a reason h interaction member :
  h ∈ entry_points bot platform a reason →
  calls (trace (h interaction member)) ≠ [] →
  checks_pass bot a interaction member.
Proof.
  intros Hh. unfold checks_pass, in_voice_channel.
  case_entry_point a h Hh; case_handler;
    first [ by intros Hc; destruct Hc
          | intros _; split;
            [first [by eauto | split; [done|lia]]
            |first [by right | left; lia]] ].
Qed.

(** The calls of a slash command and of a context-menu command. *)
Lemma slash_calls a interaction member reason :
  (checks_pass bot a interaction member
   ∧ calls (trace (slash bot platform a interaction member reason))
     = [slash_call a (user interaction) member reason])
  ∨ (¬ checks_pass bot a interaction member
     ∧ calls (trace (slash bot platform a interaction member reason)) = []).
Proof.
  destruct (calls (trace (slash bot platform a interaction member reason)))
    as [|c cs] eqn:Hcalls.
  - right. split; [|done]. intros Hpass.
    rewrite (slash_pass_path _ _ _ reason Hpass) in Hcalls. discriminate Hcalls.
  - left. assert (checks_pass bot a interaction member) as Hpass.
    { apply (call_needs_pass a reason
               (λ i m, slash bot platform a i m reason)); [by left|].
      by rewrite Hcalls. }
    split; [done|]. rewrite <-Hcalls, (slash_pass_path _ _ _ reason Hpass).
    unfold trace; cbn [snd]. by rewrite calls_after_call, calls_settle.
Qed.

Lemma menu_calls a h interaction member :
  context_menu bot platform a = Some h →
  (checks_pass bot a interaction member
   ∧ calls (trace (h interaction member))
     = [menu_call a (user interaction) member])
  ∨ (¬ checks_pass bot a interaction member
     ∧ calls (trace (h interaction member)) = []).
Proof.
  intros Hh.
  destruct (calls (trace (h interaction member))) as [|c cs] eqn:Hcalls.
  - right. split; [|done]. intros Hpass.
    rewrite (menu_pass_path _ _ _ _ Hh Hpass) in Hcalls. discriminate Hcalls.
  - left. assert (checks_pass bot a interaction member) as Hpass.
    { apply (call_needs_pass a None h); [|by rewrite Hcalls].
      unfold entry_points. rewrite Hh. right. by left. }
    split; [done|]. rewrite <-Hcalls, (menu_pass_path _ _ _ _ Hh Hpass).
    unfold trace; cbn [snd]. by rewrite calls_after_call, calls_settle.
Qed.

(** A context-menu command rejects exactly as the slash command does. *)
Lemma menu_rejects_as_slash a h interaction member reason :
  context_menu bot platform a = Some h →
  ¬ checks_pass bot a interaction member →
  h interaction member = slash bot platform a interaction member reason.
Proof.
  intros Hh Hnot. revert Hnot. unfold checks_pass, in_voice_channel.
  destruct a; cbn in Hh; try discriminate; injection Hh as <-;
    unfold_handlers; case_handler; intros Hnot; try done;
    exfalso; apply Hnot;
    (split;
     [first [by eauto | split; [done|lia]]
     |first [by right | left; lia]]).
Qed.

(** X15. For every entry point, the platform mutation is invoked exactly
    when the guards of the action pass: a voice-channel presence for the
    voice actions; a target other than the actor, below the bot, for kick
    and ban; and, for every action, an actor above the target or the
    owner. *)
Lemma mutation_iff_checks_pass a reason h interaction member :
  h ∈ entry_points bot platform a reason →
  calls (trace (h interaction member)) ≠ []
  ↔ checks_pass bot a interaction member.
Proof.
  intros Hh. split; [by apply (call_needs_pass a reason)|].
  intros Hpass. cbn in Hh. apply elem_of_cons in Hh as [->|Hh].
  - by rewrite slash_pass_path.
  - destruct (context_menu bot platform a) as [h'|] eqn:Hmenu; cbn in Hh;
      [|by apply elem_of_nil in Hh].
    apply list_elem_of_singleton in Hh as ->.
    by rewrite (menu_pass_path _ _ _ _ Hmenu Hpass).
Qed.

End Dispatch.

Section Claims.
Variable bot : Red.
Variable platform : Call → Outcome.

(** C5. For every voice action, through its slash command or its
    context-menu command, a target without an active voice-channel
    presence is answered "not in a voice channel" and nothing else
    happens: no mutation is invoked, and the outcome is the same whoever
    invokes the command, whatever the ranks, the owner and the platform
    are, so no hierarchy comparison takes part in it. *)
Theorem voice_presence_checked_first a reason h interaction member :
  is_voice_action a = true →
  h ∈ entry_points bot platform a reason →
  ¬ in_voice_channel member →
  h interaction member
  = (tt, [send_message (not_in_voice_message member) true])
  ∧ calls (trace (h interaction member)) = []
  ∧ ∀ bot' platform' interaction',
      slash bot' platform' a interaction' member reason
      = slash bot platform a interaction member reason.
Proof.
  intros Ha Hh Hv.
  assert (match voice member with
          | None => true
          | Some v => bool_decide (channel v = None)
          end = true) as Hcheck.
  { destruct (voice member) as [[[ch|]]|] eqn:Hvoice; try done.
    destruct Hv. by exists {| channel := Some ch |}, ch. }
  clear Hv. split_and!; [| |intros bot' platform' interaction'; clear Hh];
    [case_entry_point a h Hh ..|destruct a; unfold_handlers]; try done;
    by rewrite ?Hcheck.
Qed.

(** C6. For every action, through either entry point: when all the checks
    of the handler pass, the handler invokes the platform mutation of its
    action exactly once, with no retry; if the mutation raises a permission
    fault the only response is the fixed ephemeral message "I don't have
    the required permissions to {action} this user.", whatever the fault
    text; if it raises anything else the only response is the ephemeral
    message "An error occurred: " followed by the failure description. *)
Theorem mutation_failure_reported a reason interaction member :
  checks_pass bot a interaction member →
  (let c := slash_call a (user interaction) member reason in
   let t := trace (slash bot platform a interaction member reason) in
   calls t = [c]
   ∧ (∀ fault, platform c = RaisedForbidden fault →
      t = [Called c; send_message (permission_denied_message a) true])
   ∧ (∀ e, platform c = RaisedException e →
      t = [Called c; send_message ("An error occurred: " +:+ e) true]))
  ∧ (∀ h, context_menu bot platform a = Some h →
     let c := menu_call a (user interaction) member in
     let t := trace (h interaction member) in
     calls t = [c]
     ∧ (∀ fault, platform c = RaisedForbidden fault →
        t = [Called c; send_message (permission_denied_message a) true])
     ∧ (∀ e, platform c = RaisedException e →
        t = [Called c; send_message ("An error occurred: " +:+ e) true])).
Proof.
  intros Hpass. split; [|intros h Hh]; intros c t; subst c t;
    [rewrite (slash_pass_path bot platform a interaction member reason Hpass)
    |rewrite (menu_pass_path bot platform a h interaction member Hh Hpass)];
    unfold trace; cbn [snd];
    (split_and!;
     [by rewrite calls_after_call, calls_settle|intros ? Ho; by rewrite Ho ..]).
Qed.


(** C1, as the code has it. For kick and ban, through either entry point,
    a request where the bot's highest role is not above the target's never
    invokes the mutation, and is answered with the bot-outranked message
    whenever the two earlier checks pass (the target is not the actor, and
    the actor outranks the target or is the owner). The voice actions do
    not read the bot's rank at all. *)
Theorem bot_outranked_rejected a reason h interaction member :
  h ∈ entry_points bot platform a reason →
  (is_voice_action a = false →
   top_role (me (guild interaction)) ≤ top_role member →
   calls (trace (h interaction member)) = []
   ∧ (member_id member ≠ member_id (user interaction) →
      top_role member < top_role (user interaction)
      ∨ is_owner bot (user interaction) = true →
      h interaction member
      = (tt, [send_message (bot_outranked_message a) true])))
  ∧ (is_voice_action a = true →
     ∀ g, h {| user := user interaction; guild := g;
               response := response interaction |} member
          = h interaction member).
Proof.
  intros Hh. split; intros Ha.
  - intros Hrank. split; [|intros Hne Hactor];
      case_entry_point a h Hh; try done; case_handler; try done; try lia;
      destruct Hactor; (lia || congruence).
  - intros g. case_entry_point a h Hh; done.
Qed.

(** C2, as the code has it. For kick and ban, through either entry point,
    a request whose target is the actor is answered "You cannot {action}
    yourself." whatever the ranks and the owner are, and no mutation is
    invoked. *)
Theorem self_target_rejected a reason h interaction member :
  is_voice_action a = false →
  h ∈ entry_points bot platform a reason →
  member_id member = member_id (user interaction) →
  h interaction member
  = (tt, [send_message (self_target_message a) true])
  ∧ calls (trace (h interaction member)) = [].
Proof.
  intros Ha Hh Hself.
  split; case_entry_point a h Hh; try done;
    by rewrite bool_decide_true by done.
Qed.

(** C4, as the code has it. For kick and ban, through either entry point,
    when the actor is the owner and the bot's highest role is not above
    the target's, no mutation is invoked; the request is answered with the
    bot-outranked message when the target is another member, and with the
    self-target message when the owner targets themself. *)
Theorem owner_cannot_bypass_bot_rank a reason h interaction member :
  is_voice_action a = false →
  h ∈ entry_points bot platform a reason →
  is_owner bot (user interaction) = true →
  top_role (me (guild interaction)) ≤ top_role member →
  calls (trace (h interaction member)) = []
  ∧ (member_id member ≠ member_id (user interaction) →
     h interaction member
     = (tt, [send_message (bot_outranked_message a) true]))
  ∧ (member_id member = member_id (user interaction) →
     h interaction member
     = (tt, [send_message (self_target_message a) true])).
Proof.
  intros Ha Hh Ho Hrank.
  split_and!; [|intros Hne|intros Heq];
    case_entry_point a h Hh; try done; rewrite Ho; cbn;
    case_handler; try done; lia.
Qed.

(** C7, as the code has it. For each action that has a context-menu
    command, the context-menu command and the slash command make the same
    checks in the same order: they reject the same requests with the same
    message, and otherwise invoke the same mutation on the same target
    with the same flags. The audit reasons differ: the slash command
    composes "{Verb} by {name} ({id}). Reason: {reason}", with "No reason
    provided." for an omitted reason, and the context-menu command
    composes "{Verb} by {display name} via context menu.". *)
Theorem context_menu_matches_slash a h interaction member reason :
  context_menu bot platform a = Some h →
  let s := slash bot platform a interaction member reason in
  let m := h interaction member in
  call_kind <$> calls (trace m) = call_kind <$> calls (trace s)
  ∧ (calls (trace s) = [] → m = s)
  ∧ (∀ c, c ∈ calls (trace s) →
     call_reason c = slash_audit_reason a (user interaction) reason)
  ∧ (∀ c, c ∈ calls (trace m) →
     call_reason c = menu_audit_reason a (user interaction)).
Proof.
  intros Hh s m. subst s m.
  destruct (slash_calls bot platform a interaction member reason)
    as [[Hpass Hs]|[Hnot Hs]];
    destruct (menu_calls bot platform a h interaction member Hh)
      as [[Hpass' Hm]|[Hnot' Hm]]; try done; rewrite Hs, Hm.
  - split_and!.
    + by destruct a.
    + discriminate.
    + intros c ->%list_elem_of_singleton. by destruct a.
    + intros c ->%list_elem_of_singleton. by destruct a.
  - split_and!; [done| |by intros c ?%elem_of_nil ..].
    intros _. by apply menu_rejects_as_slash.
Qed.

End Claims.

(** ** The handlers on the example guild *)

(** Alice (rank 5) mutes Bob (rank 3, in a voice channel); the bot's rank
    is 2. *)
Example alice_mutes_bob :
  slash Demo.bot Demo.obliging Mute Demo.by_alice Demo.bob None
  = (tt, [Called (member_edit 2 (Some true) None
                    "Muted by alice (1). Reason: No reason provided.");
          send_message "Successfully muted <@2>. Reason: No reason provided."
                       true]).
Proof. reflexivity. Qed.

(** Alice, the owner and in a voice channel, mutes herself. *)
Example owner_mutes_herself :
  slash Demo.alices_bot Demo.obliging Mute Demo.by_alice Demo.alice
        None
  = (tt, [Called (member_edit 1 (Some true) None
                    "Muted by alice (1). Reason: No reason provided.");
          send_message "Successfully muted <@1>. Reason: No reason provided."
                       true]).
Proof. reflexivity. Qed.

(** Alice, the owner (rank 5), kicks herself; the bot's rank is 2. *)
Example owner_kicks_herself :
  slash Demo.alices_bot Demo.obliging Kick Demo.by_alice Demo.alice
        None
  = (tt, [send_message "You cannot kick yourself." true]).
Proof. reflexivity. Qed.

(** Alice (rank 5) kicks Carol (rank 1), from the slash command and from
    the context menu; the bot's rank is 2. *)
Example alice_kicks_carol :
  slash Demo.bot Demo.obliging Kick Demo.by_alice Demo.carol None
  = (tt, [Called (member_kick 3
                    "Kicked by alice (1). Reason: No reason provided.");
          send_message "Successfully kicked <@3>. Reason: No reason provided."
                       true]).
Proof. reflexivity. Qed.

Example alice_kicks_carol_from_menu :
  kick_context_menu Demo.bot Demo.obliging Demo.by_alice Demo.carol
  = (tt, [Called (member_kick 3 "Kicked by Alice via context menu.");
          send_message "Successfully kicked <@3>." true]).
Proof. reflexivity. Qed.

(** The scenarios of the specification. *)
Example scenario_equal_rank_kick :
  let actor := {| member_id := 1; name := "a"; display_name := "A";
                  mention := "<@1>"; roles := []; top_role := 5;
                  voice := None |} in
  let target := {| member_id := 2; name := "b"; display_name := "B";
                   mention := "<@2>"; roles := []; top_role := 5;
                   voice := None |} in
  slash Demo.bot Demo.obliging Kick
        {| user := actor; guild := Demo.home; response := Demo.delivered |}
        target None
  = (tt, [send_message "You cannot kick a member with an equal or higher role."
                       true]).
Proof. reflexivity. Qed.

Example scenario_owner_ban_bot_outranked :
  let target := {| member_id := 2; name := "b"; display_name := "B";
                   mention := "<@2>"; roles := []; top_role := 10;
                   voice := None |} in
  let lowbot := {| member_id := 9; name := "modbot"; display_name := "ModBot";
                   mention := "<@9>"; roles := []; top_role := 3;
                   voice := None |} in
  slash Demo.alices_bot Demo.obliging Ban
        {| user := Demo.alice; guild := {| guild_id := 100; me := lowbot |};
           response := Demo.delivered |}
        target None
  = (tt, [send_message
            "I cannot ban a member with an equal or higher role than me." true]).
Proof. reflexivity. Qed.

Example scenario_permission_fault :
  slash Demo.bot Demo.forbidding Kick Demo.by_alice Demo.carol None
  = (tt, [Called (member_kick 3
                    "Kicked by alice (1). Reason: No reason provided.");
          send_message
            "I don't have the required permissions to kick this user." true]).
Proof. reflexivity. Qed.

Example scenario_other_failure :
  slash Demo.bot Demo.failing Deafen Demo.by_alice Demo.bob (Some "spam")
  = (tt, [Called (member_edit 2 None (Some true)
                    "Deafened by alice (1). Reason: spam");
          send_message "An error occurred: 500 Internal Server Error" true]).
Proof. reflexivity. Qed.

(** The mutation returns but the interaction has expired: the confirmation
    raises inside the [try], and the handler sends the failure message. *)
Example scenario_confirmation_raises :
  slash Demo.bot Demo.obliging Kick Demo.by_alice_expired Demo.carol None
  = (tt, [Called (member_kick 3
                    "Kicked by alice (1). Reason: No reason provided.");
          send_message "Successfully kicked <@3>. Reason: No reason provided."
                       true;
          send_message
            "An error occurred: 404 Not Found (error code: 10062): Unknown interaction"
            true]).
Proof. reflexivity. Qed.

(** ** Where the handlers depart from the stated claims *)

(** C1 fails for the voice actions: Alice (rank 5) mutes Bob (rank 3) while
    the bot's rank is 2, and the mute is invoked ([alice_mutes_bob]). *)
Lemma voice_actions_skip_bot_rank :
  ¬ ∀ bot platform a interaction member reason,
      top_role (me (guild interaction)) ≤ top_role member →
      slash bot platform a interaction member reason
      = (tt, [send_message (bot_outranked_message a) true]).
Proof.
  intros Hclaim.
  specialize (Hclaim Demo.bot Demo.obliging Mute Demo.by_alice
                     Demo.bob None).
  rewrite alice_mutes_bob in Hclaim.
  discriminate Hclaim. cbn. lia.
Qed.

(** C2 fails for the voice actions: Alice, the owner and in a voice channel,
    mutes herself, and the mute is invoked ([owner_mutes_herself]). *)
Lemma voice_actions_allow_self_target :
  ¬ ∀ bot platform a interaction member reason,
      member_id member = member_id (user interaction) →
      slash bot platform a interaction member reason
      = (tt, [send_message (self_target_message a) true]).
Proof.
  intros Hclaim.
  specialize (Hclaim Demo.alices_bot Demo.obliging Mute Demo.by_alice
                     Demo.alice None eq_refl).
  rewrite owner_mutes_herself in Hclaim. discriminate Hclaim.
Qed.

(** C4 fails when the owner targets themself: Alice, the owner (rank 5),
    kicks herself while the bot's rank is 2, and the answer is the
    self-target message, not the bot-outranked one
    ([owner_kicks_herself]). *)
Lemma owner_self_target_answered_first :
  ¬ ∀ bot platform a interaction member reason,
      a ∈ [Kick; Ban] →
      is_owner bot (user interaction) = true →
      top_role (me (guild interaction)) ≤ top_role member →
      slash bot platform a interaction member reason
      = (tt, [send_message (bot_outranked_message a) true]).
Proof.
  intros Hclaim.
  specialize (Hclaim Demo.alices_bot Demo.obliging Kick Demo.by_alice
                     Demo.alice None).
  rewrite owner_kicks_herself in Hclaim.
  discriminate Hclaim; [by left|reflexivity|cbn; lia].
Qed.

(** C7 fails on the audit reason: when Alice kicks Carol, the slash command
    passes "Kicked by alice (1). Reason: No reason provided." and the
    context-menu command passes "Kicked by Alice via context menu."
    ([alice_kicks_carol], [alice_kicks_carol_from_menu]). *)
Lemma context_menu_reason_differs :
  ¬ ∀ bot platform a h interaction member,
      context_menu bot platform a = Some h →
      calls (trace (h interaction member))
      = calls (trace (slash bot platform a interaction member None)).
Proof.
  intros Hclaim.
  specialize (Hclaim Demo.bot Demo.obliging Kick _ Demo.by_alice
                     Demo.carol eq_refl).
  rewrite alice_kicks_carol, alice_kicks_carol_from_menu in Hclaim.
  discriminate Hclaim.
Qed.

(** ** The theorems at work on the example guild *)

(** Carol has no voice state: muting her is refused before anything else. *)
Lemma voice_presence_checked_first_witness :
  slash Demo.bot Demo.obliging Mute Demo.by_alice Demo.carol None
  = (tt, [send_message "<@3> is not in a voice channel." true]).
Proof.
  refine (proj1 (voice_presence_checked_first
                   Demo.bot Demo.obliging Mute None
                   (λ i m, slash Demo.bot Demo.obliging Mute i m None)
                   Demo.by_alice Demo.carol _ _ _)).
  - reflexivity.
  - left.
  - intros (v & ch & Hv & _). discriminate Hv.
Defined.

(** The platform refuses Alice's kick of Carol. *)
Lemma mutation_failure_reported_witness :
  trace (slash Demo.bot Demo.forbidding Kick Demo.by_alice Demo.carol None)
  = [Called (member_kick 3 "Kicked by alice (1). Reason: No reason provided.");
     send_message "I don't have the required permissions to kick this user."
                  true].
Proof.
  refine (proj1 (proj2 (proj1 (mutation_failure_reported
                   Demo.bot Demo.forbidding Kick None Demo.by_alice Demo.carol
                   _))) _ _).
  - split; [split; cbn; lia|left; cbn; lia].
  - reflexivity.
Defined.


(** Alice (rank 5) bans Bob (rank 3); the bot's rank is 2. *)
Lemma bot_outranked_rejected_witness :
  slash Demo.bot Demo.obliging Ban Demo.by_alice Demo.bob None
  = (tt, [send_message
            "I cannot ban a member with an equal or higher role than me." true]).
Proof.
  refine (proj2 (proj1 (bot_outranked_rejected
                   Demo.bot Demo.obliging Ban None
                   (λ i m, slash Demo.bot Demo.obliging Ban i m None)
                   Demo.by_alice Demo.bob _) _ _) _ _).
  - left.
  - reflexivity.
  - cbn. lia.
  - cbn. lia.
  - left. cbn. lia.
Defined.

(** Alice bans herself. *)
Lemma self_target_rejected_witness :
  slash Demo.bot Demo.obliging Ban Demo.by_alice Demo.alice None
  = (tt, [send_message "You cannot ban yourself." true]).
Proof.
  refine (proj1 (self_target_rejected
                   Demo.bot Demo.obliging Ban None
                   (λ i m, slash Demo.bot Demo.obliging Ban i m None)
                   Demo.by_alice Demo.alice _ _ _)).
  - reflexivity.
  - left.
  - reflexivity.
Defined.

(** Alice, the owner (rank 5), kicks Bob (rank 3); the bot's rank is 2. *)
Lemma owner_cannot_bypass_bot_rank_witness :
  slash Demo.alices_bot Demo.obliging Kick Demo.by_alice Demo.bob
        None
  = (tt, [send_message
            "I cannot kick a member with an equal or higher role than me."
            true]).
Proof.
  refine (proj1 (proj2 (owner_cannot_bypass_bot_rank
                   Demo.alices_bot Demo.obliging Kick None
                   (λ i m, slash Demo.alices_bot Demo.obliging Kick i m None)
                   Demo.by_alice Demo.bob _ _ _ _)) _).
  - reflexivity.
  - left.
  - reflexivity.
  - cbn. lia.
  - cbn. lia.
Defined.

(** Alice kicks Carol from the context menu and from the slash command. *)
Lemma context_menu_matches_slash_witness :
  call_kind <$> calls (trace (kick_context_menu Demo.bot Demo.obliging
                                Demo.by_alice Demo.carol))
  = call_kind <$> calls (trace (slash Demo.bot Demo.obliging Kick
                                  Demo.by_alice Demo.carol None)).
Proof.
  refine (proj1 (context_menu_matches_slash
                   Demo.bot Demo.obliging Kick _
                   Demo.by_alice Demo.carol None _)).
  reflexivity.
Defined.

(** ** Further properties of the configuration store *)

Lemma list_remove_snoc (x : Z) l : x ∉ l → list_remove x (l ++ [x]) = Some l.
Proof.
  induction l as [|y l IH]; cbn.
  - intros _. by rewrite decide_True.
  - intros [Hy Hl]%not_elem_of_cons.
    rewrite decide_False by done. by rewrite IH.
Qed.

Lemma filter_ne_absent (x : Z) (l : list Z) :
  x ∉ l → filter (λ y, y ≠ x) l = l.
Proof.
  induction l as [|z l IH]; [done|].
  intros [Hz Hl]%not_elem_of_cons. rewrite filter_cons.
  rewrite decide_True by done. f_equal. by apply IH.
Qed.

Lemma list_remove_filter (x : Z) (l : list Z) :
  NoDup l → x ∈ l → list_remove x l = Some (filter (λ y, y ≠ x) l).
Proof.
  induction 1 as [|y l Hy Hl IH]; [by intros ?%elem_of_nil|].
  intros Hin. rewrite filter_cons. cbn [list_remove].
  destruct (decide (y = x)) as [->|Hne].
  - rewrite decide_False by (by intros ?). by rewrite filter_ne_absent.
  - rewrite decide_True by done.
    apply elem_of_cons in Hin as [?|Hin]; [congruence|].
    by rewrite IH.
Qed.

Lemma list_remove_absent (x : Z) (l : list Z) :
  x ∉ l → list_remove x l = None.
Proof.
  induction l as [|y l IH]; [done|].
  intros [Hy Hl]%not_elem_of_cons. cbn.
  rewrite decide_False by done. by rewrite IH.
Qed.

(** What [removerole] leaves in each guild's list. *)
Lemma remove_mod_role_roles self interaction role m g :
  insane_moderation.remove_mod_role self interaction role = Some m →
  mod_roles (result m) g
  = if decide (guild_id (guild interaction) = guild_id g) then
      let l := mod_roles self (guild interaction) in
      default l (list_remove (role_id role) l)
    else mod_roles self g.
Proof.
  unfold insane_moderation.remove_mod_role. case_bool_decide as Hin.
  - intros [= <-]. unfold_io. cbn [fst snd]. rewrite mod_roles_set.
    case_decide; [|done]. cbv zeta. by rewrite list_remove_absent.
  - destruct (list_remove _ _) as [k|] eqn:Hk; [|done].
    intros [= <-]. unfold_io. cbn [fst snd]. rewrite mod_roles_set.
    by case_decide.
Qed.

(** X1. Adding a role that is not yet configured and then removing it
    succeeds and leaves every guild's list exactly as it was; the two calls
    answer "has been added as a moderator role." and "has been removed from
    the moderator roles.". *)
Theorem add_then_remove_restores self interaction role :
  role_id role ∉ mod_roles self (guild interaction) →
  let added := insane_moderation.add_mod_role self interaction role in
  ∃ removed,
    insane_moderation.remove_mod_role (result added) interaction role
    = Some removed
    ∧ (∀ g, mod_roles (result removed) g = mod_roles self g)
    ∧ trace added
      = [send_message (role_mention role
                       +:+ " has been added as a moderator role.") true]
    ∧ trace removed
      = [send_message (role_mention role
                       +:+ " has been removed from the moderator roles.") true].
Proof.
  intros Hnot added.
  assert (mod_roles (result added) (guild interaction)
          = (mod_roles self (guild interaction) ++ [role_id role])%list) as Hl.
  { subst added. rewrite add_mod_role_roles, decide_True by done. cbn.
    by rewrite bool_decide_false. }
  assert (trace added
          = [send_message (role_mention role
                           +:+ " has been added as a moderator role.") true])
    as Htr.
  { subst added. unfold insane_moderation.add_mod_role.
    rewrite bool_decide_false by done. by unfold_io. }
  assert (∀ g, guild_id (guild interaction) ≠ guild_id g →
               mod_roles (result added) g = mod_roles self g) as Hother.
  { intros g Hg. subst added. rewrite add_mod_role_roles.
    by rewrite decide_False. }
  unfold insane_moderation.remove_mod_role. rewrite Hl.
  rewrite bool_decide_false.
  2:{ intros Hn. apply Hn, elem_of_app. right. by left. }
  rewrite list_remove_snoc by done. eexists. split; [reflexivity|].
  split_and!; [|done|by unfold_io].
  intros g. unfold mbind, IO_bind, mret, IO_ret, respond.
  unfold result at 1. cbn [fst snd]. rewrite mod_roles_set.
  case_decide as Hg; [|by apply Hother].
  unfold mod_roles. by rewrite Hg.
Qed.

Lemma add_then_remove_restores_witness :
  ∃ removed,
    insane_moderation.remove_mod_role
      (result (insane_moderation.add_mod_role Demo.cog Demo.by_alice
                 Demo.helpers))
      Demo.by_alice Demo.helpers = Some removed
    ∧ mod_roles (result removed) Demo.home = [10].
Proof.
  destruct (add_then_remove_restores Demo.cog Demo.by_alice Demo.helpers)
    as (removed & Hrm & Hsame & _).
  - vm_compute. intros Hin.
    repeat (apply elem_of_cons in Hin as [Hin|Hin]; [done|]).
    by apply elem_of_nil in Hin.
  - exists removed. split; [exact Hrm|]. by rewrite Hsame.
Defined.

(** X2. Removing a configured role from a duplicate-free list succeeds,
    answers "has been removed from the moderator roles.", and leaves the
    guild's list without that id and with all other ids in their order. *)
Theorem remove_present_mod_role self interaction role :
  NoDup (mod_roles self (guild interaction)) →
  role_id role ∈ mod_roles self (guild interaction) →
  ∃ removed,
    insane_moderation.remove_mod_role self interaction role = Some removed
    ∧ mod_roles (result removed) (guild interaction)
      = (filter (λ x, x ≠ role_id role) (mod_roles self (guild interaction)))
    ∧ (role_id role ∉ mod_roles (result removed) (guild interaction))
    ∧ trace removed
      = [send_message (role_mention role
                       +:+ " has been removed from the moderator roles.") true].
Proof.
  intros Hnd Hin. unfold insane_moderation.remove_mod_role.
  rewrite bool_decide_false by (by intros ?).
  rewrite (list_remove_filter _ _ Hnd Hin). eexists. split; [reflexivity|].
  unfold_io; cbn. rewrite mod_roles_set_same. split_and!; [done| |done].
  intros [Hne _]%list_elem_of_filter. by apply Hne.
Qed.

Lemma remove_present_mod_role_witness :
  ∃ removed,
    insane_moderation.remove_mod_role Demo.cog Demo.by_alice Demo.moderators
    = Some removed
    ∧ mod_roles (result removed) Demo.home = [].
Proof.
  destruct (remove_present_mod_role Demo.cog Demo.by_alice Demo.moderators)
    as (removed & Hrm & Hl & _).
  - vm_compute. apply NoDup_singleton.
  - vm_compute. by left.
  - exists removed. split; [exact Hrm|]. etrans; [exact Hl|reflexivity].
Defined.

(** X3. A configuration command invoked in one guild never changes the
    moderator role list of a guild with another id. *)
Theorem config_commands_guild_local self interaction role g :
  guild_id g ≠ guild_id (guild interaction) →
  mod_roles (result (insane_moderation.add_mod_role self interaction role)) g
  = mod_roles self g
  ∧ ∀ removed,
      insane_moderation.remove_mod_role self interaction role = Some removed →
      mod_roles (result removed) g = mod_roles self g.
Proof.
  intros Hg. split.
  - rewrite add_mod_role_roles. by rewrite decide_False.
  - intros removed Hrm. rewrite (remove_mod_role_roles _ _ _ _ _ Hrm).
    by rewrite decide_False.
Qed.

Lemma config_commands_guild_local_witness :
  mod_roles
    (result (insane_moderation.add_mod_role Demo.cog Demo.by_alice Demo.helpers))
    {| guild_id := 200; me := Demo.modbot |} = [].
Proof.
  refine (eq_trans (proj1 (config_commands_guild_local
                             Demo.cog Demo.by_alice Demo.helpers
                             {| guild_id := 200; me := Demo.modbot |} _)) _).
  - cbn. lia.
  - reflexivity.
Defined.


(** X5. On a duplicate-free list, removing the same role twice answers
    "is not a moderator role." the second time and changes no guild's list
    then. *)
Theorem remove_mod_role_twice self interaction role once :
  NoDup (mod_roles self (guild interaction)) →
  insane_moderation.remove_mod_role self interaction role = Some once →
  ∃ twice,
    insane_moderation.remove_mod_role (result once) interaction role
    = Some twice
    ∧ trace twice
      = [send_message (role_mention role +:+ " is not a moderator role.") true]
    ∧ ∀ g, mod_roles (result twice) g = mod_roles (result once) g.
Proof.
  intros Hnd Honce.
  assert (role_id role ∉ mod_roles (result once) (guild interaction)) as Hgone.
  { rewrite (remove_mod_role_roles _ _ _ _ _ Honce), decide_True by done. cbn.
    destruct (decide (role_id role ∈ mod_roles self (guild interaction)))
      as [Hin|Hnot].
    - rewrite (list_remove_filter _ _ Hnd Hin). cbn.
      intros [Hne _]%list_elem_of_filter. by apply Hne.
    - destruct (list_remove _ _) as [k|] eqn:Hk; [|done]. cbn.
      intros Hk'. apply Hnot. by eapply list_remove_subseteq. }
  unfold insane_moderation.remove_mod_role at 1.
  rewrite bool_decide_true by done. unfold_io; cbn.
  eexists. split_and!; [reflexivity|done|]. intros g. apply mod_roles_set_id.
Qed.

Lemma remove_mod_role_twice_witness :
  ∃ once twice,
    insane_moderation.remove_mod_role Demo.cog Demo.by_alice Demo.moderators
    = Some once
    ∧ insane_moderation.remove_mod_role (result once) Demo.by_alice
        Demo.moderators = Some twice
    ∧ trace twice = [send_message "<@&10> is not a moderator role." true].
Proof.
  destruct (remove_mod_role_total Demo.cog Demo.by_alice Demo.moderators)
    as [once Honce].
  destruct (remove_mod_role_twice Demo.cog Demo.by_alice Demo.moderators once)
    as (twice & Htwice & Htrace & _).
  - vm_compute. apply NoDup_singleton.
  - exact Honce.
  - exists once, twice. split_and!; [exact Honce|exact Htwice|exact Htrace].
Defined.

Lemma filter_ne_snoc_Permutation (x : Z) (l : list Z) :
  NoDup l → x ∈ l → (filter (λ y, y ≠ x) l ++ [x])%list ≡ₚ l.
Proof.
  induction 1 as [|y l Hy Hl IH]; [by intros ?%elem_of_nil|].
  intros Hin. rewrite filter_cons. destruct (decide (y = x)) as [->|Hne].
  - rewrite decide_False by (by intros ?). rewrite filter_ne_absent by done.
    symmetry. apply Permutation_cons_append.
  - rewrite decide_True by done.
    apply elem_of_cons in Hin as [?|Hin]; [congruence|].
    cbn. f_equiv. by apply IH.
Qed.

(** X6. Removing a configured role from a duplicate-free list and adding
    it again keeps the same roles configured but moves the role to the end
    of the list, which is the order [listroles] shows. *)
Theorem remove_then_add_moves_last self interaction role :
  NoDup (mod_roles self (guild interaction)) →
  role_id role ∈ mod_roles self (guild interaction) →
  ∃ removed,
    insane_moderation.remove_mod_role self interaction role = Some removed
    ∧ let readded :=
        insane_moderation.add_mod_role (result removed) interaction role in
      mod_roles (result readded) (guild interaction)
      = (filter (λ x, x ≠ role_id role) (mod_roles self (guild interaction))
         ++ [role_id role])%list
      ∧ mod_roles (result readded) (guild interaction)
        ≡ₚ mod_roles self (guild interaction).
Proof.
  intros Hnd Hin.
  destruct (remove_mod_role_total self interaction role) as [removed Hrm].
  exists removed. split; [done|]. intros readded.
  assert (mod_roles (result readded) (guild interaction)
          = (filter (λ x, x ≠ role_id role) (mod_roles self (guild interaction))
             ++ [role_id role])%list) as Heq.
  { subst readded. rewrite add_mod_role_roles, decide_True by done. cbv zeta.
    rewrite (remove_mod_role_roles _ _ _ _ _ Hrm), decide_True by done.
    cbv zeta. rewrite (list_remove_filter _ _ Hnd Hin). cbn [default from_option id].
    rewrite bool_decide_false; [done|].
    intros [Hne _]%list_elem_of_filter. by apply Hne. }
  split; [done|]. rewrite Heq. by apply filter_ne_snoc_Permutation.
Qed.

Lemma remove_then_add_moves_last_witness :
  ∃ removed,
    insane_moderation.remove_mod_role
      {| config := {[ 100 := [10; 11] ]} |} Demo.by_alice Demo.moderators
    = Some removed
    ∧ mod_roles
        (result (insane_moderation.add_mod_role (result removed) Demo.by_alice
                   Demo.moderators)) Demo.home
      = [11; 10].
Proof.
  destruct (remove_then_add_moves_last
              {| config := {[ 100 := [10; 11] ]} |} Demo.by_alice Demo.moderators)
    as (removed & Hrm & Heq & _).
  - vm_compute. apply NoDup_cons. split; [|apply NoDup_singleton].
    intros Hin. apply list_elem_of_singleton in Hin. discriminate Hin.
  - vm_compute. by left.
  - exists removed. split; [exact Hrm|]. etrans; [exact Heq|reflexivity].
Defined.

(** X7. In a guild that has no configuration record yet, the registered
    default applies: [listroles] answers "No moderator roles are
    configured.", the guard denies every non-owner with the "no roles
    configured" notice, [removerole] of any role answers "is not a moderator
    role.", and [addrole] of any role makes it the guild's only moderator
    role. *)
Theorem unconfigured_guild_defaults self interaction :
  config self !! guild_id (guild interaction) = None →
  insane_moderation.list_mod_roles self interaction
  = (tt, [send_message "No moderator roles are configured." true])
  ∧ (∀ bot, is_owner bot (user interaction) = false →
     is_mod_check (with_cog bot self) interaction
     = (false,
        [send_message "No moderator roles have been configured on this server."
                      true]))
  ∧ (∀ role,
     trace <$> insane_moderation.remove_mod_role self interaction role
     = Some [send_message (role_mention role +:+ " is not a moderator role.")
                          true])
  ∧ (∀ role,
     mod_roles (result (insane_moderation.add_mod_role self interaction role))
               (guild interaction)
     = [role_id role]).
Proof.
  intros Hnone.
  assert (mod_roles self (guild interaction) = []) as Hl.
  { unfold mod_roles. by rewrite Hnone. }
  split_and!.
  - unfold insane_moderation.list_mod_roles. by rewrite Hl.
  - intros bot Ho. unfold is_mod_check. cbn [is_owner get_cog with_cog].
    rewrite Ho, decide_True by done. by rewrite Hl.
  - intros role. unfold insane_moderation.remove_mod_role. rewrite Hl.
    rewrite bool_decide_true by (by intros ?%elem_of_nil). done.
  - intros role. rewrite add_mod_role_roles, decide_True by done. cbv zeta.
    rewrite Hl. by rewrite bool_decide_false by (by intros ?%elem_of_nil).
Qed.

Lemma unconfigured_guild_defaults_witness :
  insane_moderation.list_mod_roles fresh_cog Demo.by_alice
  = (tt, [send_message "No moderator roles are configured." true]).
Proof.
  refine (proj1 (unconfigured_guild_defaults fresh_cog Demo.by_alice _)).
  reflexivity.
Defined.

(** X8. After a role that was not configured is added, [listroles] in that
    guild answers "Moderator roles: " followed by the ids configured before,
    in their order, and the new id last, each rendered as a role mention and
    separated by ", ". *)
Theorem list_mod_roles_after_add self interaction role :
  role_id role ∉ mod_roles self (guild interaction) →
  insane_moderation.list_mod_roles
    (result (insane_moderation.add_mod_role self interaction role)) interaction
  = (tt, [send_message
            ("Moderator roles: "
             +:+ String.concat ", "
                   (listed <$> (mod_roles self (guild interaction)
                                ++ [role_id role])%list))
            true]).
Proof.
  intros Hnot. unfold insane_moderation.list_mod_roles.
  rewrite add_mod_role_roles, decide_True by done. cbv zeta.
  rewrite (bool_decide_false (role_id role ∈ _)) by done.
  rewrite bool_decide_false; [done|].
  by destruct (mod_roles self (guild interaction)).
Qed.

Lemma list_mod_roles_after_add_witness :
  insane_moderation.list_mod_roles
    (result (insane_moderation.add_mod_role Demo.cog Demo.by_alice Demo.helpers))
    Demo.by_alice
  = (tt, [send_message "Moderator roles: <@&10>, <@&11>" true]).
Proof.
  refine (eq_trans (list_mod_roles_after_add Demo.cog Demo.by_alice
                      Demo.helpers _) _).
  - vm_compute. intros Hin.
    repeat (apply elem_of_cons in Hin as [Hin|Hin]; [done|]).
    by apply elem_of_nil in Hin.
  - reflexivity.
Defined.

(** X9. The prefix configuration commands of [src/modslash/modslash.py]
    change the configuration exactly as the slash configuration commands of
    [src/insane-moderation/modslash.py] do in the same guild, and send the
    same text, with [ctx.send] in place of an ephemeral interaction
    response. *)
Theorem prefix_commands_match_slash self ctx interaction role :
  ctx_guild ctx = guild interaction →
  modslash.add_mod_role self ctx role
  = (result (insane_moderation.add_mod_role self interaction role),
     to_ctx <$> trace (insane_moderation.add_mod_role self interaction role))
  ∧ modslash.remove_mod_role self ctx role
    = (λ m : IO ModSlash, (result m, to_ctx <$> trace m))
      <$> insane_moderation.remove_mod_role self interaction role
  ∧ modslash.list_mod_roles self ctx
    = (tt, to_ctx <$> trace (insane_moderation.list_mod_roles self interaction)).
Proof.
  intros Hg.
  unfold modslash.add_mod_role, modslash.remove_mod_role,
    modslash.list_mod_roles, insane_moderation.add_mod_role,
    insane_moderation.remove_mod_role, insane_moderation.list_mod_roles.
  rewrite Hg. split_and!.
  - by case_bool_decide.
  - case_bool_decide; [done|]. by destruct (list_remove _ _).
  - by case_bool_decide.
Qed.

Lemma prefix_commands_match_slash_witness :
  modslash.add_mod_role Demo.cog {| ctx_guild := Demo.home |} Demo.helpers
  = (result (insane_moderation.add_mod_role Demo.cog Demo.by_alice Demo.helpers),
     [ctx_send "<@&11> has been added as a moderator role."]).
Proof.
  refine (eq_trans (proj1 (prefix_commands_match_slash
                             Demo.cog {| ctx_guild := Demo.home |}
                             Demo.by_alice Demo.helpers _)) _);
    reflexivity.
Defined.

(** ** Configuration and guard together *)

Lemma is_mod_check_with_cog bot cog interaction :
  is_mod_check (with_cog bot cog) interaction
  = if is_owner bot (user interaction) then (true, [])
    else if bool_decide (mod_roles cog (guild interaction) = []) then
      (false,
       [send_message "No moderator roles have been configured on this server."
                     true])
    else if bool_decide
              ((list_to_set (role_id <$> roles (user interaction)) : gset Z)
               ∩ list_to_set (mod_roles cog (guild interaction)) = ∅) then
      (false,
       [send_message "You do not have the required role to use this command."
                     true])
    else (true, []).
Proof.
  unfold is_mod_check. cbn [is_owner get_cog with_cog].
  rewrite decide_True by done.
  destruct (is_owner bot (user interaction)); [done|].
  by repeat case_bool_decide.
Qed.

Lemma add_mod_role_keeps self interaction role g x :
  x ∈ mod_roles self g →
  x ∈ mod_roles (result (insane_moderation.add_mod_role self interaction role)) g.
Proof.
  intros Hx. rewrite add_mod_role_roles. case_decide as Hg; [|done].
  assert (mod_roles self (guild interaction) = mod_roles self g) as ->.
  { unfold mod_roles. by rewrite Hg. }
  cbv zeta. case_bool_decide; [done|]. apply elem_of_app. by left.
Qed.

(** X10. Once [addrole] has run in a guild, every member of that guild who
    holds the role passes the guard, silently; and nobody who passed the
    guard before, in any guild, is denied afterwards. *)
Theorem added_role_authorizes bot self interaction role :
  let added := result (insane_moderation.add_mod_role self interaction role) in
  (∀ invocation r,
     guild_id (guild invocation) = guild_id (guild interaction) →
     r ∈ roles (user invocation) → role_id r = role_id role →
     is_mod_check (with_cog bot added) invocation = (true, []))
  ∧ (∀ invocation,
       result (is_mod_check (with_cog bot self) invocation) = true →
       result (is_mod_check (with_cog bot added) invocation) = true).
Proof.
  intros added. split.
  - intros invocation r Hg Hr Hid. rewrite is_mod_check_with_cog.
    destruct (is_owner bot (user invocation)); [done|].
    assert (role_id role ∈ mod_roles added (guild invocation)) as Hin.
    { subst added. rewrite add_mod_role_roles, decide_True by done.
      apply added_role_present. }
    rewrite bool_decide_false.
    2:{ intros Hnil. rewrite Hnil in Hin. by apply elem_of_nil in Hin. }
    rewrite bool_decide_false; [done|].
    apply shares_mod_role. exists r. by rewrite Hid.
  - intros invocation. rewrite !is_mod_check_with_cog.
    destruct (is_owner bot (user invocation)); [done|].
    case_bool_decide as Hnil; [done|].
    case_bool_decide as Hshare; [done|]. intros _.
    apply shares_mod_role in Hshare as (r & Hr & Hin).
    apply (add_mod_role_keeps _ interaction role) in Hin. fold added in Hin.
    rewrite bool_decide_false.
    2:{ intros Hnil'. rewrite Hnil' in Hin. by apply elem_of_nil in Hin. }
    rewrite bool_decide_false; [done|].
    apply shares_mod_role. eauto.
Qed.

(** X11. When the role being removed is the guild's only moderator role,
    the guild is unconfigured again: afterwards the guard denies every
    non-owner of that guild with the "no roles configured" notice, and
    still lets the owner through. *)
Theorem removing_last_role_locks_out bot self interaction role :
  mod_roles self (guild interaction) = [role_id role] →
  ∃ removed,
    insane_moderation.remove_mod_role self interaction role = Some removed
    ∧ ∀ invocation,
        guild_id (guild invocation) = guild_id (guild interaction) →
        is_mod_check (with_cog bot (result removed)) invocation
        = if is_owner bot (user invocation) then (true, [])
          else (false,
                [send_message
                   "No moderator roles have been configured on this server."
                   true]).
Proof.
  intros Hl.
  destruct (remove_mod_role_total self interaction role) as [removed Hrm].
  exists removed. split; [done|]. intros invocation Hg.
  rewrite is_mod_check_with_cog.
  rewrite (remove_mod_role_roles _ _ _ _ _ Hrm), decide_True by done.
  cbv zeta. rewrite Hl. cbn [list_remove]. rewrite decide_True by done.
  cbn [default from_option id]. by rewrite bool_decide_true.
Qed.

Lemma removing_last_role_locks_out_witness :
  ∃ removed,
    insane_moderation.remove_mod_role Demo.cog Demo.by_alice Demo.moderators
    = Some removed
    ∧ is_mod_check (with_cog Demo.bot (result removed)) Demo.by_alice
      = (false,
         [send_message "No moderator roles have been configured on this server."
                       true]).
Proof.
  destruct (removing_last_role_locks_out
              Demo.bot Demo.cog Demo.by_alice Demo.moderators)
    as (removed & Hrm & Hdeny).
  - reflexivity.
  - exists removed. split; [exact Hrm|].
    exact (Hdeny Demo.by_alice eq_refl).
Defined.




Lemma added_role_authorizes_witness :
  is_mod_check
    (with_cog Demo.bot
       (result (insane_moderation.add_mod_role Demo.cog Demo.by_alice
                  Demo.helpers)))
    Demo.by_carol
  = (true, []).
Proof.
  refine (proj1 (added_role_authorizes Demo.bot Demo.cog Demo.by_alice
                   Demo.helpers) Demo.by_carol Demo.helpers _ _ _).
  - reflexivity.
  - vm_compute. by left.
  - reflexivity.
Defined.

(** ** Further properties of the action handlers *)

Lemma responses_send content ephemeral t :
  responses (send_message content ephemeral :: t)
  = send_message content ephemeral :: responses t.
Proof. reflexivity. Qed.

Lemma responses_call c t : responses (Called c :: t) = responses t.
Proof. reflexivity. Qed.

(** X13. Every slash or context-menu handler sends at least one and at
    most two responses, all of them ephemeral; it sends a second one only
    when the mutation returned and sending the confirmation raised. The
    platform is called at most once, and before any response. *)
Theorem responses_per_invocation bot platform a reason h interaction member :
  h ∈ entry_points bot platform a reason →
  let t := trace (h interaction member) in
  (∀ e, e ∈ responses t → ∃ notice, e = send_message notice true)
  ∧ (1 ≤ length (responses t) ≤ 2)%nat
  ∧ (length (calls t) ≤ 1)%nat
  ∧ (∀ c, c ∈ calls t → head t = Some (Called c))
  ∧ (length (responses t) = 2%nat →
     ∃ c success,
       calls t = [c] ∧ platform c = Returned
       ∧ response interaction success ≠ Returned
       ∧ head (responses t) = Some (send_message success true)).
Proof.
  intros Hh t. subst t.
  destruct (entry_point_shape bot platform a reason h interaction member Hh)
    as [[notice ->]|(c & success & ->)]; unfold trace; cbn [snd].
  - rewrite responses_send. cbn.
    split_and!; [|lia|lia|lia|by intros c ?%elem_of_nil|done].
    intros e ->%list_elem_of_singleton. by eexists.
  - unfold settle.
    destruct (platform c) eqn:Hc;
      [destruct (response interaction success) eqn:Hr|..];
      rewrite responses_call, !responses_send; cbn;
      (split_and!;
       [intros ev He;
        repeat (apply elem_of_cons in He as [->|He]; [by eexists|]);
        by apply elem_of_nil in He
       |lia|lia|lia
       |by intros c' ->%list_elem_of_singleton
       |try done; intros _; exists c, success; by rewrite Hr]).
Qed.

Lemma responses_per_invocation_witness :
  (length (responses (trace (kick_context_menu Demo.bot Demo.failing
                               Demo.by_alice Demo.carol))) ≤ 2)%nat.
Proof.
  destruct (responses_per_invocation
              Demo.bot Demo.failing Kick None
              (kick_context_menu Demo.bot Demo.failing)
              Demo.by_alice Demo.carol) as (_ & [_ Hle] & _).
  - right. left.
  - exact Hle.
Defined.

(** X14. An actor who is not the owner and whose highest role is not above
    the target's is refused with "You cannot {action} a member with an equal
    or higher role.", and no mutation is invoked: for kick and ban when the
    target is another member, for the voice actions when the target is in a
    voice channel. *)
Theorem actor_outranked_rejected bot platform a reason h interaction member :
  h ∈ entry_points bot platform a reason →
  is_owner bot (user interaction) = false →
  top_role (user interaction) ≤ top_role member →
  (if is_voice_action a then in_voice_channel member
   else member_id member ≠ member_id (user interaction)) →
  h interaction member
  = (tt, [send_message (actor_outranked_message a) true]).
Proof.
  intros Hh Ho Hrank Hfirst.
  case_entry_point a h Hh; cbn in Hfirst;
    try destruct Hfirst as ([chan] & ch & Hv & Hch); simplify_eq/=;
    rewrite ?Hv, Ho; cbn;
    rewrite ?(bool_decide_false (member_id member = _)) by done;
    by rewrite bool_decide_true by done.
Qed.

Lemma actor_outranked_rejected_witness :
  slash Demo.bot Demo.obliging Kick Demo.by_carol Demo.bob None
  = (tt, [send_message "You cannot kick a member with an equal or higher role."
                       true]).
Proof.
  refine (actor_outranked_rejected
            Demo.bot Demo.obliging Kick None
            (λ i m, slash Demo.bot Demo.obliging Kick i m None)
            Demo.by_carol Demo.bob _ _ _ _).
  - left.
  - reflexivity.
  - cbn. lia.
  - cbn. lia.
Defined.

Lemma mutation_iff_checks_pass_witness :
  calls (trace (slash Demo.bot Demo.obliging Silence Demo.by_alice Demo.bob
                  None)) ≠ []
  ↔ checks_pass Demo.bot Silence Demo.by_alice Demo.bob.
Proof.
  refine (mutation_iff_checks_pass
            Demo.bot Demo.obliging Silence None
            (λ i m, slash Demo.bot Demo.obliging Silence i m None)
            Demo.by_alice Demo.bob _).
  left.
Defined.

(** X16. When the guards pass, a slash command invokes the mutation of its
    action (kick, ban, or an edit of exactly the voice flags of the action)
    on the target, with the audit reason "{Verb} by {name} ({id})." followed
    by " Reason: {reason}" for the commands that take a reason. If the
    mutation returns it sends "Successfully {verb} {mention}." (with the
    reason, for those commands), and if sending that raises, the failure
    message of what was raised; if the mutation raises it sends only the
    failure message. *)
Theorem slash_invokes_action bot platform a interaction member reason :
  checks_pass bot a interaction member →
  let c := slash_call a (user interaction) member reason in
  slash bot platform a interaction member reason
  = (tt, Called c
         :: settle a interaction (slash_success a member reason) (platform c)).
Proof.
  intros Hpass.
  exact (slash_pass_path bot platform a interaction member reason Hpass).
Qed.

Lemma slash_invokes_action_witness :
  slash Demo.bot Demo.obliging Unsilence Demo.by_alice_expired Demo.bob None
  = (tt, [Called (member_edit 2 (Some false) (Some false)
                    "Unsilenced by alice (1).");
          send_message "Successfully unsilenced <@2>." true;
          send_message
            "An error occurred: 404 Not Found (error code: 10062): Unknown interaction"
            true]).
Proof.
  refine (slash_invokes_action Demo.bot Demo.obliging Unsilence
            Demo.by_alice_expired Demo.bob None _).
  split.
  - exists Demo.lounge, 77. split; reflexivity.
  - left. cbn. lia.
Defined.

(** X17. When the guards pass, a context-menu command invokes the mutation
    of its action on the target, with the audit reason "{Verb} by {display
    name} via context menu.". If the mutation returns it sends
    "Successfully {verb} {mention}.", and if sending that raises, the
    failure message of what was raised; if the mutation raises it sends
    only the failure message. *)
Theorem context_menu_invokes_action bot platform a h interaction member :
  context_menu bot platform a = Some h →
  checks_pass bot a interaction member →
  let c := menu_call a (user interaction) member in
  h interaction member
  = (tt, Called c
         :: settle a interaction (menu_success a member) (platform c)).
Proof.
  intros Hh Hpass.
  exact (menu_pass_path bot platform a h interaction member Hh Hpass).
Qed.

Lemma context_menu_invokes_action_witness :
  deafen_context_menu Demo.bot Demo.obliging Demo.by_alice Demo.bob
  = (tt, [Called (member_edit 2 None (Some true)
                    "Deafened by Alice via context menu.");
          send_message "Successfully deafened <@2>." true]).
Proof.
  refine (context_menu_invokes_action Demo.bot Demo.obliging Deafen _
            Demo.by_alice Demo.bob eq_refl _).
  split.
  - exists Demo.lounge, 77. split; reflexivity.
  - left. cbn. lia.
Defined.

(** X18. A voice action and the action that undoes it (mute and unmute,
    deafen and undeafen, silence and unsilence) are let through for exactly
    the same requests, act on the same target, and the undoing action sets
    exactly the flags the action set, to the opposite value. *)
Theorem inverse_action_mirrors bot platform a b interaction member
    reason reason' :
  inverse_action a = Some b →
  (λ c, (call_target c, call_flags c))
    <$> calls (trace (slash bot platform b interaction member reason'))
  = (λ c, (call_target c, opposite_flags (call_flags c)))
      <$> calls (trace (slash bot platform a interaction member reason)).
Proof.
  intros Hb.
  assert (checks_pass bot b interaction member
          ↔ checks_pass bot a interaction member) as Hsame.
  { by destruct a; cbn in Hb; try discriminate; injection Hb as <-. }
  destruct (slash_calls bot platform a interaction member reason)
    as [[Hpass ->]|[Hnot ->]];
    destruct (slash_calls bot platform b interaction member reason')
      as [[Hpass' ->]|[Hnot' ->]]; try done; [|tauto..].
  by destruct a; cbn in Hb; try discriminate; injection Hb as <-.
Qed.

Lemma inverse_action_mirrors_witness :
  (λ c, (call_target c, call_flags c))
    <$> calls (trace (slash Demo.bot Demo.obliging Unmute Demo.by_alice
                        Demo.bob None))
  = [(2, (Some false, None))].
Proof.
  refine (eq_trans (inverse_action_mirrors Demo.bot Demo.obliging Mute Unmute
                      Demo.by_alice Demo.bob None None _) _);
    reflexivity.
Defined.
